(** * Primordial Soup VM: threads, locks, monitors and isolate messages

    A shallow embedding of [src/vm/thread_fuchsia.cc] and of the
    [IsolateMessage] class of [src/vm/message_loop.h].

    The C++ code talks to the operating system through pthread calls
    whose result codes decide the control flow.  The embedding keeps
    that shape: every method is a computation in a small monad [M] that
    threads a [world] (heap, thread-local slot, trace of OS calls) and
    reads the result of each OS call from an oracle in the environment.
    A computation ends normally ([Ok]), terminates the process
    ([Fatal], what FATAL1 and a failed ASSERT do) or leaves the defined
    behaviour of C++ ([Undefined]). *)

From Stdlib Require Import ZArith Lia List.
From stdpp Require Import base option numbers list gmap strings.

Local Open Scope Z_scope.

(** ** Machine integers *)

Module CInt.

(** An integer type of the target: its size in bytes and its signedness. *)
Record int_type := { sizeof : Z; is_signed : bool }.

Definition bits (ty : int_type) : Z := 8 * sizeof ty.

Definition int32_t : int_type := {| sizeof := 4; is_signed := true |}.
Definition int64_t : int_type := {| sizeof := 8; is_signed := true |}.
(** Fuchsia is an LP64 target: [long] and [intptr_t] take 8 bytes. *)
Definition long : int_type := {| sizeof := 8; is_signed := true |}.
Definition intptr_t : int_type := {| sizeof := 8; is_signed := true |}.
Definition uintptr_t : int_type := {| sizeof := 8; is_signed := false |}.

Definition min_value (ty : int_type) : Z :=
  if is_signed ty then - 2 ^ (bits ty - 1) else 0.

Definition max_value (ty : int_type) : Z :=
  if is_signed ty then 2 ^ (bits ty - 1) - 1 else 2 ^ bits ty - 1.

Definition in_range (ty : int_type) (z : Z) : Prop :=
  min_value ty <= z <= max_value ty.

(** [static_cast<ty>(z)]: the value of [z] modulo [2 ^ bits], read in
    the range of [ty]. *)
Definition static_cast (ty : int_type) (z : Z) : Z :=
  if is_signed ty
  then (z + 2 ^ (bits ty - 1)) mod 2 ^ bits ty - 2 ^ (bits ty - 1)
  else z mod 2 ^ bits ty.

End CInt.

(** ** Constants the code takes from headers *)

(** [<errno.h>] of the target C library (musl). *)
Definition EPERM : Z := 1.
Definition EAGAIN : Z := 11.
Definition EBUSY : Z := 16.
Definition EINVAL : Z := 22.
Definition EDEADLK : Z := 35.
Definition ETIMEDOUT : Z := 110.

(** Modelled from the spec: [vm/globals.h] is missing; the spec speaks of
    nanosecond deadlines and of clamping to the representable range. *)
Definition kNanosecondsPerSecond : Z := 1000000000.

(** Modelled from the spec: [vm/globals.h] is missing; the largest value
    of [int32_t]. *)
Definition kMaxInt32 : Z := 2147483647.

(** The smallest value of [int32_t], the type the seconds are cast to. *)
Definition kMinInt32 : Z := -2147483648.

Definition NULL : N := 0%N.

(** [Thread::kInvalidThreadId] and [Thread::kInvalidThreadJoinId]. *)
Definition kInvalidThreadId : Z := 0.
Definition kInvalidThreadJoinId : Z := 0.

(** Modelled from the spec: [vm/thread_fuchsia.h] is missing; the key value
    that stands for "no key", [static_cast<pthread_key_t>(-1)]. *)
Definition kUnsetThreadLocalKey : Z := 4294967295.

(** ** The world a thread runs in *)

Inductive build_mode := DEBUG | RELEASE.

Inductive mutex_type := PTHREAD_MUTEX_ERRORCHECK.
Inductive clock_id := CLOCK_MONOTONIC.

Record timespec := { tv_sec : Z; tv_nsec : Z }.

(** The OS calls the file makes, with the arguments that matter here. *)
Inductive syscall :=
| pthread_attr_init
| pthread_create (data : N)
| pthread_attr_destroy
| pthread_key_create (destructor : N)
| pthread_key_delete (key : Z)
| pthread_setspecific (key : Z) (value : Z)
| pthread_mutexattr_init
| pthread_mutexattr_settype (type : mutex_type)
| pthread_mutex_init
| pthread_mutexattr_destroy
| pthread_mutex_lock
| pthread_mutex_trylock
| pthread_mutex_unlock
| pthread_condattr_init
| pthread_condattr_setclock (clock : clock_id)
| pthread_cond_init
| pthread_condattr_destroy
| pthread_cond_wait
| pthread_cond_timedwait (ts : timespec)
| pthread_cond_signal
| pthread_cond_broadcast.

Inductive event :=
| Call (c : syscall) (result : Z)      (* an OS call and its result code *)
| Stderr (result : Z)                  (* the diagnostic of a DEBUG build *)
| Invoke (function : N) (parameter : Z). (* a call through a function pointer *)

Record ThreadStartData := {
  tsd_name : N;
  tsd_function : N;
  tsd_parameter : Z
}.

(** Modelled from the spec: [vm/thread.h] is missing; of a [Thread] object
    only the name given by [set_name] is observed here. *)
Record Thread := { thread_name : N }.

Inductive object :=
| OBytes (bytes : list Z)
| OThreadStartData (d : ThreadStartData)
| OThread (t : Thread).

Record world := {
  heap : gmap N object;     (* live allocations of the process *)
  tls_current : N;          (* the running thread's slot for Thread::Current *)
  trace : list event
}.

Inductive failure :=
| PthreadError (result : Z)          (* FATAL1("pthread error: %d", result) *)
| AssertionFailed (expr : string).   (* a failed ASSERT *)

Inductive result (A : Type) :=
| Ok (a : A)
| Fatal (f : failure)
| Undefined.
Arguments Ok {A} a.
Arguments Fatal {A} f.
Arguments Undefined {A}.

(** What a thread cannot decide itself: how the VM was compiled, who it is,
    what the OS answers to each call given the calls made so far, and what
    the code behind a function pointer does. *)
Record env := {
  build : build_mode;
  pthread_self : Z;
  os : list event -> syscall -> Z;
  os_key : list event -> Z;
  code : N -> Z -> world -> world * result unit
}.

Definition M (A : Type) : Type := env -> world -> world * result A.

Definition ret {A} (a : A) : M A := fun _ w => (w, Ok a).

Definition bind {A B} (m : M A) (k : A -> M B) : M B :=
  fun e w =>
    match m e w with
    | (w', Ok a) => k a e w'
    | (w', Fatal f) => (w', Fatal f)
    | (w', Undefined) => (w', Undefined)
    end.

Notation "'let!' x ':=' m 'in' k" := (bind m (fun x => k))
  (at level 10, x name, m at level 100, k at level 200).
Notation "m '>>' k" := (bind m (fun _ => k))
  (at level 90, right associativity).

Definition is_fatal {A} (r : result A) : bool :=
  match r with Fatal _ => true | _ => false end.

(** The events a computation added to the trace. *)
Definition new_events (before after : world) : list event :=
  drop (length (trace before)) (trace after).

(** An OS call: the oracle answers, the call is recorded. *)
Definition call (c : syscall) : M Z :=
  fun e w =>
    let r := os e (trace w) c in
    ({| heap := heap w; tls_current := tls_current w;
        trace := trace w ++ [Call c r] |}, Ok r).

Definition log (ev : event) : M unit :=
  fun e w =>
    ({| heap := heap w; tls_current := tls_current w;
        trace := trace w ++ [ev] |}, Ok tt).

Definition get_build : M build_mode := fun e w => (w, Ok (build e)).

(** [#if defined(DEBUG) ... #endif] around statements. *)
Definition when_DEBUG (m : M unit) : M unit :=
  let! b := get_build in
  match b with DEBUG => m | RELEASE => ret tt end.

(** *** Heap *)

Definition fresh_address (h : gmap N object) : N := fresh ({[NULL]} ∪ dom h).

(** [new T(...)]. *)
Definition new (o : object) : M N :=
  fun e w =>
    let p := fresh_address (heap w) in
    ({| heap := <[p := o]> (heap w); tls_current := tls_current w;
        trace := trace w |}, Ok p).

(** [free(p)], and [delete p] alike: nothing for a null pointer, the block
    is released when [p] is a live allocation, anything else is undefined. *)
Definition free (p : N) : M unit :=
  fun e w =>
    if decide (p = NULL) then (w, Ok tt)
    else match heap w !! p with
         | Some _ => ({| heap := delete p (heap w);
                         tls_current := tls_current w;
                         trace := trace w |}, Ok tt)
         | None => (w, Undefined)
         end.

(** *** Macros *)

Definition FATAL1 {A} (result : Z) : M A :=
  fun e w => (w, Fatal (PthreadError result)).

Definition VALIDATE_PTHREAD_RESULT (result : Z) : M unit :=
  if negb (result =? 0) then FATAL1 result else ret tt.

(** Modelled from the spec: [vm/assert.h] is missing.  A failed ASSERT
    terminates a DEBUG build; in other builds the macro expands to nothing,
    as the note at ASSERT_PTHREAD_SUCCESS says. *)
Definition ASSERT (cond : bool) (expr : string) : M unit :=
  let! b := get_build in
  match b with
  | DEBUG => if cond then ret tt else fun e w => (w, Fatal (AssertionFailed expr))
  | RELEASE => ret tt
  end.

(** Modelled from the spec: [vm/assert.h] is missing.  DEBUG_ASSERT is
    ASSERT in a DEBUG build and nothing otherwise. *)
Definition DEBUG_ASSERT (cond : bool) (expr : string) : M unit :=
  ASSERT cond expr.

Definition ASSERT_PTHREAD_SUCCESS (result : Z) : M unit :=
  let! b := get_build in
  match b with
  | DEBUG => VALIDATE_PTHREAD_RESULT result
  | RELEASE => ASSERT (result =? 0) "result == 0"
  end.

(** The macro returns from the enclosing function; [k] is the rest of it. *)
Definition RETURN_ON_PTHREAD_FAILURE (result : Z) (k : M Z) : M Z :=
  if negb (result =? 0)
  then when_DEBUG (log (Stderr result)) >> ret result
  else k.

(** ** vm/message_loop.h: IsolateMessage *)

Module Message.

(** [Port] comes from the missing [vm/port.h]; the destination is an
    opaque number here. *)
Record IsolateMessage := {
  next_ : N;
  dest_ : Z;
  data_ : N;      (* Owned by message. *)
  length_ : Z;
  argv_ : N;      (* Not owned by message. *)
  argc_ : Z
}.

(** [IsolateMessage(Port dest, uint8_t* data, intptr_t length)] *)
Definition IsolateMessage_bytes (dest : Z) (data : N) (length : Z)
  : IsolateMessage :=
  {| next_ := NULL; dest_ := dest;
     data_ := data; length_ := length;
     argv_ := NULL; argc_ := 0 |}.

(** [IsolateMessage(Port dest, int argc, const char** argv)] *)
Definition IsolateMessage_args (dest : Z) (argc : Z) (argv : N)
  : IsolateMessage :=
  {| next_ := NULL; dest_ := dest;
     data_ := NULL; length_ := 0;
     argv_ := argv; argc_ := argc |}.

(** [~IsolateMessage() { free(data_); }] *)
Definition IsolateMessage_dtor (this : IsolateMessage) : M unit :=
  free (data_ this).

Definition dest_port (m : IsolateMessage) : Z := dest_ m.
Definition data (m : IsolateMessage) : N := data_ m.
Definition length (m : IsolateMessage) : Z := length_ m.
Definition argc (m : IsolateMessage) : Z := argc_ m.
Definition argv (m : IsolateMessage) : N := argv_ m.

(** The messages the two constructors can build. *)
Inductive constructed : IsolateMessage -> Prop :=
| constructed_bytes dest d len : constructed (IsolateMessage_bytes dest d len)
| constructed_args dest n av : constructed (IsolateMessage_args dest n av).

(** A payload side is present when its pointer is non-null or its count is
    non-zero. *)
Definition has_bytes (m : IsolateMessage) : Prop :=
  data m <> NULL \/ length m <> 0.

Definition has_args (m : IsolateMessage) : Prop :=
  argv m <> NULL \/ argc m <> 0.

End Message.

(** ** vm/thread_fuchsia.cc *)

(** *** Thread *)

Definition GetCurrentThreadId : M Z := fun e w => (w, Ok (pthread_self e)).

(** Modelled from the spec: [Thread::Thread()] is missing; a new thread
    object has no name yet. *)
Definition Thread_ctor : Thread := {| thread_name := NULL |}.

(** Modelled from the spec: [Thread::SetCurrent] is missing; it installs
    the thread object as the thread-local current execution context. *)
Definition Thread_SetCurrent (thread : N) : M unit :=
  fun e w =>
    ({| heap := heap w; tls_current := thread; trace := trace w |}, Ok tt).

(** Modelled from the spec: [Thread::Current] is missing; it reads the
    thread-local current execution context. *)
Definition Thread_Current : M N := fun e w => (w, Ok (tls_current w)).

(** Reading the fields of the object behind a pointer; undefined when the
    pointer does not lead to an object of that class. *)
Definition load_ThreadStartData (p : N) : M ThreadStartData :=
  fun e w =>
    match heap w !! p with
    | Some (OThreadStartData d) => (w, Ok d)
    | _ => (w, Undefined)
    end.

(** Modelled from the spec: [Thread::set_name] is missing; it stores the
    name in the thread object. *)
Definition Thread_set_name (thread : N) (name : N) : M unit :=
  fun e w =>
    match heap w !! thread with
    | Some (OThread _) =>
        ({| heap := <[thread := OThread {| thread_name := name |}]> (heap w);
            tls_current := tls_current w; trace := trace w |}, Ok tt)
    | _ => (w, Undefined)
    end.

(** A call through the function pointer [function]: the call is recorded
    and the code behind the pointer runs. *)
Definition invoke (function : N) (parameter : Z) : M unit :=
  log (Invoke function parameter) >>
  fun e w => code e function parameter w.

Definition ThreadStart (data_ptr : N) : M N :=
  let! data := load_ThreadStartData data_ptr in
  let name := tsd_name data in
  let function := tsd_function data in
  let parameter := tsd_parameter data in
  free data_ptr >>
  (* Create new Thread object and set as TLS for new thread. *)
  let! thread := new (OThread Thread_ctor) in
  Thread_SetCurrent thread >>
  Thread_set_name thread name >>
  (* Call the supplied thread start function handing it its parameters. *)
  invoke function parameter >>
  ret NULL.

Definition Thread_Start (name : N) (function : N) (parameter : Z) : M Z :=
  let! result := call pthread_attr_init in
  RETURN_ON_PTHREAD_FAILURE result (
  let! data := new (OThreadStartData {| tsd_name := name;
                                        tsd_function := function;
                                        tsd_parameter := parameter |}) in
  let! result := call (pthread_create data) in
  RETURN_ON_PTHREAD_FAILURE result (
  let! result := call pthread_attr_destroy in
  RETURN_ON_PTHREAD_FAILURE result (
  ret 0))).

(** The key is an out-parameter: the OS stores one when it succeeds. *)
Definition Thread_CreateThreadLocal (destructor : N) : M Z :=
  let key := kUnsetThreadLocalKey in
  let! tr := (fun e w => (w, Ok (trace w))) in
  let! result := call (pthread_key_create destructor) in
  let! key := (fun e w => (w, Ok (if result =? 0 then os_key e tr else key))) in
  VALIDATE_PTHREAD_RESULT result >>
  ASSERT (negb (key =? kUnsetThreadLocalKey)) "key != kUnsetThreadLocalKey" >>
  ret key.

Definition Thread_DeleteThreadLocal (key : Z) : M unit :=
  ASSERT (negb (key =? kUnsetThreadLocalKey)) "key != kUnsetThreadLocalKey" >>
  let! result := call (pthread_key_delete key) in
  VALIDATE_PTHREAD_RESULT result.

Definition Thread_SetThreadLocal (key : Z) (value : Z) : M unit :=
  ASSERT (negb (key =? kUnsetThreadLocalKey)) "key != kUnsetThreadLocalKey" >>
  let! result := call (pthread_setspecific key value) in
  VALIDATE_PTHREAD_RESULT result.

(** [ThreadId] is an integer type of the target; which one is decided by
    the missing [vm/thread_fuchsia.h], so it is a parameter here. *)
Definition Thread_ThreadIdToIntPtr (ThreadId : CInt.int_type) (id : Z) : M Z :=
  ASSERT (CInt.sizeof ThreadId =? CInt.sizeof CInt.intptr_t)
         "sizeof(id) == sizeof(intptr_t)" >>
  ret (CInt.static_cast CInt.intptr_t id).

Definition Thread_ThreadIdFromIntPtr (ThreadId : CInt.int_type) (id : Z) : M Z :=
  ret (CInt.static_cast ThreadId id).

(** The two identifiers of a [Thread] object that
    [Thread::GetCurrentThreadJoinId] reads and writes: [id()] and, in a
    DEBUG build, [join_id_].  A null [Thread*] is [None]. *)
Record ThreadIdentity := { id_ : Z; join_id_ : Z }.

Definition Thread_GetCurrentThreadJoinId (thread : option ThreadIdentity)
  : M (Z * option ThreadIdentity) :=
  ASSERT (match thread with Some _ => true | None => false end)
         "thread != NULL" >>
  (* Make sure we're filling in the join id for the current thread. *)
  let! current := GetCurrentThreadId in
  ASSERT (match thread with Some t => id_ t =? current | None => false end)
         "thread->id() == GetCurrentThreadId()" >>
  (* Make sure the join_id_ hasn't been set, yet. *)
  DEBUG_ASSERT (match thread with
                | Some t => join_id_ t =? kInvalidThreadJoinId
                | None => false
                end)
               "thread->join_id_ == kInvalidThreadJoinId" >>
  let! id := GetCurrentThreadId in
  let! b := get_build in
  match b with
  | DEBUG =>
      ret (id, match thread with
               | Some t => Some {| id_ := id_ t; join_id_ := id |}
               | None => None
               end)
  | RELEASE => ret (id, thread)
  end.

(** *** Owner tracking of Mutex and Monitor *)

(** Modelled from the spec: [vm/thread.h] is missing; a DEBUG build tracks
    the owning thread in [owner_] and asserts that a lock being taken is
    unheld; other builds do not track. *)
Definition CheckUnheldAndMark (owner : Z) : M Z :=
  let! b := get_build in
  match b with
  | DEBUG =>
      ASSERT (owner =? kInvalidThreadId) "owner_ == Thread::kInvalidThreadId" >>
      GetCurrentThreadId
  | RELEASE => ret owner
  end.

(** Modelled from the spec: [vm/thread.h] is missing; a DEBUG build asserts
    that a lock being released is held by the caller and clears [owner_]. *)
Definition CheckHeldAndUnmark (owner : Z) : M Z :=
  let! b := get_build in
  match b with
  | DEBUG =>
      let! current := GetCurrentThreadId in
      ASSERT (owner =? current) "owner_ == Thread::GetCurrentThreadId()" >>
      ret kInvalidThreadId
  | RELEASE => ret owner
  end.

(** Modelled from the spec: [vm/thread.h] is missing; whether the tracked
    owner is the calling thread. *)
Definition IsOwnedByCurrentThread (owner : Z) : M bool :=
  let! current := GetCurrentThreadId in
  ret (owner =? current).

(** *** Mutex *)

Record Mutex := { mutex_owner_ : Z }.

Definition Mutex_ctor : M Mutex :=
  let! result := call pthread_mutexattr_init in
  VALIDATE_PTHREAD_RESULT result >>
  when_DEBUG (
    let! result := call (pthread_mutexattr_settype PTHREAD_MUTEX_ERRORCHECK) in
    VALIDATE_PTHREAD_RESULT result) >>
  let! result := call pthread_mutex_init in
  (* Verify that creating a pthread_mutex succeeded. *)
  VALIDATE_PTHREAD_RESULT result >>
  let! result := call pthread_mutexattr_destroy in
  VALIDATE_PTHREAD_RESULT result >>
  (* When running with assertions enabled we track the owner. *)
  ret {| mutex_owner_ := kInvalidThreadId |}.

Definition Mutex_Lock (this : Mutex) : M Mutex :=
  let! result := call pthread_mutex_lock in
  (* Specifically check for dead lock to help debugging. *)
  ASSERT (negb (result =? EDEADLK)) "result != EDEADLK" >>
  ASSERT_PTHREAD_SUCCESS result >>
  let! owner := CheckUnheldAndMark (mutex_owner_ this) in
  ret {| mutex_owner_ := owner |}.

Definition Mutex_TryLock (this : Mutex) : M (bool * Mutex) :=
  let! result := call pthread_mutex_trylock in
  (* Return false if the lock is busy and locking failed. *)
  if result =? EBUSY then ret (false, this)
  else
    ASSERT_PTHREAD_SUCCESS result >>
    let! owner := CheckUnheldAndMark (mutex_owner_ this) in
    ret (true, {| mutex_owner_ := owner |}).

Definition Mutex_Unlock (this : Mutex) : M Mutex :=
  let! owner := CheckHeldAndUnmark (mutex_owner_ this) in
  let! result := call pthread_mutex_unlock in
  (* Specifically check for wrong thread unlocking to aid debugging. *)
  ASSERT (negb (result =? EPERM)) "result != EPERM" >>
  ASSERT_PTHREAD_SUCCESS result >>
  ret {| mutex_owner_ := owner |}.

(** *** Monitor *)

Record Monitor := { monitor_owner_ : Z }.

Inductive WaitResult := kNotified | kTimedOut.

Definition Monitor_ctor : M Monitor :=
  let! result := call pthread_mutexattr_init in
  VALIDATE_PTHREAD_RESULT result >>
  when_DEBUG (
    let! result := call (pthread_mutexattr_settype PTHREAD_MUTEX_ERRORCHECK) in
    VALIDATE_PTHREAD_RESULT result) >>
  let! result := call pthread_mutex_init in
  VALIDATE_PTHREAD_RESULT result >>
  let! result := call pthread_mutexattr_destroy in
  VALIDATE_PTHREAD_RESULT result >>
  let! result := call pthread_condattr_init in
  VALIDATE_PTHREAD_RESULT result >>
  let! result := call (pthread_condattr_setclock CLOCK_MONOTONIC) in
  VALIDATE_PTHREAD_RESULT result >>
  let! result := call pthread_cond_init in
  VALIDATE_PTHREAD_RESULT result >>
  let! result := call pthread_condattr_destroy in
  VALIDATE_PTHREAD_RESULT result >>
  ret {| monitor_owner_ := kInvalidThreadId |}.

Definition Monitor_TryEnter (this : Monitor) : M (bool * Monitor) :=
  let! result := call pthread_mutex_trylock in
  (* Return false if the lock is busy and locking failed. *)
  if result =? EBUSY then ret (false, this)
  else
    ASSERT_PTHREAD_SUCCESS result >>
    let! owner := CheckUnheldAndMark (monitor_owner_ this) in
    ret (true, {| monitor_owner_ := owner |}).

Definition Monitor_Enter (this : Monitor) : M Monitor :=
  let! result := call pthread_mutex_lock in
  VALIDATE_PTHREAD_RESULT result >>
  let! owner := CheckUnheldAndMark (monitor_owner_ this) in
  ret {| monitor_owner_ := owner |}.

Definition Monitor_Exit (this : Monitor) : M Monitor :=
  let! owner := CheckHeldAndUnmark (monitor_owner_ this) in
  let! result := call pthread_mutex_unlock in
  VALIDATE_PTHREAD_RESULT result >>
  ret {| monitor_owner_ := owner |}.

(** While the caller is suspended other threads may enter and exit the
    monitor; each clears [owner_] again before it releases the lock, so the
    caller finds the mark it left. *)
Definition Monitor_Wait (this : Monitor) : M Monitor :=
  let! owner := CheckHeldAndUnmark (monitor_owner_ this) in
  let! result := call pthread_cond_wait in
  VALIDATE_PTHREAD_RESULT result >>
  let! owner := CheckUnheldAndMark owner in
  ret {| monitor_owner_ := owner |}.

Definition Monitor_WaitUntilNanos (this : Monitor) (deadline : Z)
  : M (WaitResult * Monitor) :=
  let! owner := CheckHeldAndUnmark (monitor_owner_ this) in
  let retval := kNotified in
  let secs := Z.quot deadline kNanosecondsPerSecond in
  let nanos := Z.rem deadline kNanosecondsPerSecond in
  let secs := if secs >? kMaxInt32
              then (* Avoid truncation of overly large timeout values. *)
                kMaxInt32
              else secs in
  let ts := {| tv_sec := CInt.static_cast CInt.int32_t secs;
               tv_nsec := CInt.static_cast CInt.long nanos |} in
  let! result := call (pthread_cond_timedwait ts) in
  ASSERT ((result =? 0) || (result =? ETIMEDOUT))
         "(result == 0) || (result == ETIMEDOUT)" >>
  let retval := if result =? ETIMEDOUT then kTimedOut else retval in
  let! owner := CheckUnheldAndMark owner in
  ret (retval, {| monitor_owner_ := owner |}).

Definition Monitor_Notify (this : Monitor) : M unit :=
  (* When running with assertions enabled we track the owner. *)
  let! owned := IsOwnedByCurrentThread (monitor_owner_ this) in
  DEBUG_ASSERT owned "IsOwnedByCurrentThread()" >>
  let! result := call pthread_cond_signal in
  VALIDATE_PTHREAD_RESULT result.

Definition Monitor_NotifyAll (this : Monitor) : M unit :=
  (* When running with assertions enabled we track the owner. *)
  let! owned := IsOwnedByCurrentThread (monitor_owner_ this) in
  DEBUG_ASSERT owned "IsOwnedByCurrentThread()" >>
  let! result := call pthread_cond_broadcast in
  VALIDATE_PTHREAD_RESULT result.

(** ** Concrete environments, for running the code *)

Definition idle_code (function : N) (parameter : Z) (w : world)
  : world * result unit := (w, Ok tt).

(** An OS that answers every call with [r_create] for [pthread_create],
    [r_lock] for the lock calls, [r_cond] for the condition calls and
    success for the rest. *)
Definition scripted_os (r_create r_lock r_cond : Z)
  (tr : list event) (c : syscall) : Z :=
  match c with
  | pthread_create _ => r_create
  | pthread_mutex_lock | pthread_mutex_trylock | pthread_mutex_unlock => r_lock
  | pthread_mutex_init | pthread_key_create _ | pthread_key_delete _ => r_lock
  | pthread_cond_wait | pthread_cond_timedwait _
  | pthread_cond_signal | pthread_cond_broadcast => r_cond
  | _ => 0
  end.

Definition scripted_env (b : build_mode) (r_create r_lock r_cond : Z) : env :=
  {| build := b; pthread_self := 7;
     os := scripted_os r_create r_lock r_cond;
     os_key := fun _ => 3;
     code := idle_code |}.

(** An entry function that looks up the current thread and reports the
    pointer it finds. *)
Definition probe_code (function : N) (parameter : Z) (w : world)
  : world * result unit :=
  ({| heap := heap w; tls_current := tls_current w;
      trace := trace w ++ [Stderr (Z.of_N (tls_current w))] |}, Ok tt).

Definition probe_env : env :=
  {| build := DEBUG; pthread_self := 8;
     os := scripted_os 0 0 0;
     os_key := fun _ => 3;
     code := probe_code |}.

Definition empty_world : world :=
  {| heap := ∅; tls_current := NULL; trace := [] |}.

(** ** What an OS failure does to a computation *)

(** Every failed OS call of the computation ends the process with the
    failed call's result code. *)
Definition os_failure_is_fatal {A} (m : M A) : Prop :=
  forall e w c rc,
    In (Call c rc) (new_events w (fst (m e w))) -> rc <> 0 ->
    snd (m e w) = Fatal (PthreadError rc).

(** Every failed OS call of the computation makes it return the failed
    call's result code to its caller. *)
Definition os_failure_is_returned (m : M Z) : Prop :=
  forall e w c rc,
    In (Call c rc) (new_events w (fst (m e w))) -> rc <> 0 ->
    snd (m e w) = Ok rc.

(** The computation makes at least one OS call. *)
Definition calls_os {A} (m : M A) : Prop :=
  forall e w, exists c rc, In (Call c rc) (new_events w (fst (m e w))).

(** Whether the owner check that opens a release of the lock lets the
    caller pass: a DEBUG build wants the caller to be the tracked owner. *)
Definition passes_held_check (e : env) (owner : Z) : bool :=
  match build e with
  | DEBUG => owner =? pthread_self e
  | RELEASE => true
  end.

(** Whether the owner check that closes an acquisition of the lock lets the
    caller pass: a DEBUG build wants the lock to be tracked as unheld. *)
Definition passes_unheld_check (e : env) (owner : Z) : bool :=
  match build e with
  | DEBUG => owner =? kInvalidThreadId
  | RELEASE => true
  end.

(** What the claims ask of a try-lock operation [try] on an object whose
    DEBUG owner mark is read by [owner_of].  The operation makes one OS
    call, the try-lock, which does not block.  It answers false exactly
    when that call says EBUSY, and it leaves the object as it was.  It
    answers true for a successful call, with the caller marked as owner
    where owners are tracked.  Any other result ends a DEBUG build; where
    assertions are compiled out the call answers true as well. *)
Definition try_lock_contract {T} (owner_of : T -> Z)
  (try : T -> M (bool * T)) : Prop :=
  forall this e w,
    let r := os e (trace w) pthread_mutex_trylock in
    new_events w (fst (try this e w)) = [Call pthread_mutex_trylock r]
    /\ ((exists this', snd (try this e w) = Ok (false, this')) <-> r = EBUSY)
    /\ (r = EBUSY -> snd (try this e w) = Ok (false, this))
    /\ (forall this', snd (try this e w) = Ok (true, this') ->
        build e = DEBUG ->
        r = 0 /\ owner_of this = kInvalidThreadId
        /\ owner_of this' = pthread_self e)
    /\ (r = 0 -> passes_unheld_check e (owner_of this) = true ->
        exists this', snd (try this e w) = Ok (true, this')
                      /\ (build e = DEBUG -> owner_of this' = pthread_self e))
    /\ (r <> 0 -> r <> EBUSY -> build e = DEBUG ->
        snd (try this e w) = Fatal (PthreadError r))
    /\ (r <> EBUSY -> build e = RELEASE ->
        snd (try this e w) = Ok (true, this)).

(** What the claims ask of a notification [notify] that wakes waiters
    through the OS call [signal].  A DEBUG build checks that the caller
    holds the monitor before anything else happens.  Past the check the
    operation makes that one OS call, and a failure of it is fatal. *)
Definition notify_contract (signal : syscall)
  (notify : Monitor -> M unit) : Prop :=
  forall this e w,
    (build e = DEBUG -> monitor_owner_ this <> pthread_self e ->
     notify this e w = (w, Fatal (AssertionFailed "IsOwnedByCurrentThread()")))
    /\ (passes_held_check e (monitor_owner_ this) = true ->
        let r := os e (trace w) signal in
        new_events w (fst (notify this e w)) = [Call signal r]
        /\ (r = 0 -> snd (notify this e w) = Ok tt)
        /\ (r <> 0 -> snd (notify this e w) = Fatal (PthreadError r))).

(** An OS that answers success to every call. *)
Definition os_succeeds (e : env) : Prop :=
  forall tr c, os e tr c = 0.

(** The world after some more events. *)
Definition after_events (w : world) (l : list event) : world :=
  {| heap := heap w; tls_current := tls_current w; trace := trace w ++ l |}.

(** Whether the key check that opens the thread-local operations lets the
    caller pass: a DEBUG build refuses the key that stands for "no key". *)
Definition passes_key_check (e : env) (key : Z) : bool :=
  match build e with
  | DEBUG => negb (key =? kUnsetThreadLocalKey)
  | RELEASE => true
  end.

(** ** Proof support *)

Section CIntFacts.
Import CInt.

Lemma static_cast_in_range ty z :
  0 < bits ty -> in_range ty z -> static_cast ty z = z.
Proof.
  unfold in_range, min_value, max_value, static_cast.
  intros Hb. assert (Hp : 2 ^ bits ty = 2 * 2 ^ (bits ty - 1)).
  { rewrite <- Z.pow_succ_r by lia. f_equal. lia. }
  assert (0 < 2 ^ (bits ty - 1)) by (apply Z.pow_pos_nonneg; lia).
  destruct (is_signed ty); intros Hr.
  - rewrite Z.mod_small by lia. lia.
  - apply Z.mod_small. lia.
Qed.

(** Two casts to types of the same width agree modulo [2 ^ bits]. *)
Lemma static_cast_congr ty z :
  0 < bits ty -> (static_cast ty z) mod 2 ^ bits ty = z mod 2 ^ bits ty.
Proof.
  unfold static_cast. intros Hb.
  assert (Hp : 2 ^ bits ty = 2 * 2 ^ (bits ty - 1)).
  { rewrite <- Z.pow_succ_r by lia. f_equal. lia. }
  assert (0 < 2 ^ (bits ty - 1)) by (apply Z.pow_pos_nonneg; lia).
  destruct (is_signed ty).
  - rewrite Zminus_mod_idemp_l.
    replace (z + 2 ^ (bits ty - 1) - 2 ^ (bits ty - 1)) with z by lia.
    reflexivity.
  - apply Z.mod_mod. lia.
Qed.

(** A cast through a type of the same width is undone by the cast back. *)
Lemma static_cast_round_trip a b z :
  0 < bits a -> bits b = bits a -> in_range a z ->
  static_cast a (static_cast b z) = z.
Proof.
  intros Ha Hab Hr.
  rewrite <- (static_cast_in_range a z Ha Hr) at 2.
  assert (Hm : static_cast b z mod 2 ^ bits a = z mod 2 ^ bits a).
  { rewrite <- Hab. apply static_cast_congr. lia. }
  unfold static_cast at 1 3. destruct (is_signed a).
  - f_equal.
    rewrite <- (Zplus_mod_idemp_l (static_cast b z)), Hm, Zplus_mod_idemp_l.
    reflexivity.
  - exact Hm.
Qed.

End CIntFacts.

Lemma new_events_same w h t :
  new_events w {| heap := h; tls_current := t; trace := trace w |} = [].
Proof. unfold new_events. simpl. apply drop_all. Qed.

Lemma new_events_app w h t l :
  new_events w {| heap := h; tls_current := t; trace := trace w ++ l |} = l.
Proof. unfold new_events. simpl. apply drop_app_length. Qed.

Lemma new_events_refl w : new_events w w = [].
Proof. unfold new_events. apply drop_all. Qed.

(** Unfolding of the monad and of the macros. *)
Ltac run :=
  cbv [bind ret call log get_build when_DEBUG new free FATAL1
       VALIDATE_PTHREAD_RESULT ASSERT DEBUG_ASSERT ASSERT_PTHREAD_SUCCESS
       RETURN_ON_PTHREAD_FAILURE CheckUnheldAndMark CheckHeldAndUnmark
       IsOwnedByCurrentThread GetCurrentThreadId]; simpl.

(** Case analysis on the build, carried through the nested macros. *)
Ltac by_build e :=
  let Hb := fresh "Hb" in
  destruct (build e) eqn:Hb; simpl; repeat (rewrite Hb; simpl).

(** Normal form of the events added to a trace. *)
Ltac events :=
  repeat rewrite <- app_assoc; simpl;
  rewrite ?new_events_app, ?new_events_same, ?new_events_refl.

(** Case analysis on the result code of the next OS call. *)
Ltac next_call :=
  match goal with
  | |- context [ (os ?e ?tr ?c =? 0) ] =>
      let r := fresh "r" in
      generalize (os e tr c); intros r;
      destruct (Z.eqb_spec r 0); [subst r | ]; simpl
  end.

Ltac failed_call :=
  events; simpl;
  intros c0 rc0 Hin Hne; simpl in Hin;
  repeat (destruct Hin as [Hin | Hin];
          [ inversion Hin; subst; try congruence; try reflexivity | ]);
  try contradiction.

Lemma Thread_Start_os_failure_is_returned name function parameter :
  os_failure_is_returned (Thread_Start name function parameter).
Proof.
  unfold os_failure_is_returned, Thread_Start. intros e w. run.
  next_call.
  - next_call.
    + next_call.
      * failed_call.
      * destruct (build e); simpl; failed_call.
    + destruct (build e); simpl; failed_call.
  - destruct (build e); simpl; failed_call.
Qed.

Lemma Thread_Start_never_fatal name function parameter e w :
  exists rc, snd (Thread_Start name function parameter e w) = Ok rc.
Proof.
  unfold Thread_Start. run.
  repeat (next_call; [ | destruct (build e); simpl; eauto ]).
  eauto.
Qed.

Lemma Thread_Start_calls_os name function parameter :
  calls_os (Thread_Start name function parameter).
Proof.
  intros e w. exists pthread_attr_init, (os e (trace w) pthread_attr_init).
  unfold Thread_Start. run.
  generalize (os e (trace w) pthread_attr_init). intros r0.
  destruct (Z.eqb_spec r0 0); simpl.
  - repeat (next_call; [ | destruct (build e); simpl; events; simpl; auto ]).
    events. simpl. auto.
  - destruct (build e); simpl; events; simpl; auto.
Qed.

Lemma Mutex_ctor_os_failure_is_fatal : os_failure_is_fatal Mutex_ctor.
Proof.
  unfold os_failure_is_fatal, Mutex_ctor. intros e w. run.
  destruct (build e); simpl;
    repeat (next_call; [ | failed_call ]); failed_call.
Qed.

Lemma Monitor_ctor_os_failure_is_fatal : os_failure_is_fatal Monitor_ctor.
Proof.
  unfold os_failure_is_fatal, Monitor_ctor. intros e w. run.
  destruct (build e); simpl;
    repeat (next_call; [ | failed_call ]); failed_call.
Qed.

Lemma Thread_CreateThreadLocal_os_failure_is_fatal destructor :
  os_failure_is_fatal (Thread_CreateThreadLocal destructor).
Proof.
  unfold os_failure_is_fatal, Thread_CreateThreadLocal. intros e w. run.
  generalize (os_key e (trace w)). intros k.
  next_call; [ | failed_call ].
  destruct (build e); simpl; [ destruct (k =? kUnsetThreadLocalKey); simpl | ];
    failed_call.
Qed.

Lemma Thread_DeleteThreadLocal_os_failure_is_fatal key :
  os_failure_is_fatal (Thread_DeleteThreadLocal key).
Proof.
  unfold os_failure_is_fatal, Thread_DeleteThreadLocal. intros e w. run.
  destruct (build e); simpl; [ destruct (key =? kUnsetThreadLocalKey); simpl | ];
    try (next_call; failed_call).
  events. simpl. intros c rc [].
Qed.

Lemma Mutex_ctor_calls_os : calls_os Mutex_ctor.
Proof.
  intros e w.
  exists pthread_mutexattr_init, (os e (trace w) pthread_mutexattr_init).
  unfold Mutex_ctor. run.
  generalize (os e (trace w) pthread_mutexattr_init). intros r0.
  destruct (Z.eqb_spec r0 0); simpl; [ | events; simpl; auto ].
  destruct (build e); simpl;
    repeat (next_call; [ | events; simpl; auto ]); events; simpl; auto.
Qed.

Lemma Monitor_ctor_calls_os : calls_os Monitor_ctor.
Proof.
  intros e w.
  exists pthread_mutexattr_init, (os e (trace w) pthread_mutexattr_init).
  unfold Monitor_ctor. run.
  generalize (os e (trace w) pthread_mutexattr_init). intros r0.
  destruct (Z.eqb_spec r0 0); simpl; [ | events; simpl; auto ].
  destruct (build e); simpl;
    repeat (next_call; [ | events; simpl; auto ]); events; simpl; auto.
Qed.

Lemma Mutex_TryLock_busy this e w :
  os e (trace w) pthread_mutex_trylock = EBUSY ->
  snd (Mutex_TryLock this e w) = Ok (false, this).
Proof. unfold Mutex_TryLock. run. intros ->. reflexivity. Qed.

Lemma Monitor_TryEnter_busy this e w :
  os e (trace w) pthread_mutex_trylock = EBUSY ->
  snd (Monitor_TryEnter this e w) = Ok (false, this).
Proof. unfold Monitor_TryEnter. run. intros ->. reflexivity. Qed.

Lemma Thread_Start_zero_iff name function parameter e w :
  snd (Thread_Start name function parameter e w) = Ok 0
  <-> new_events w (fst (Thread_Start name function parameter e w))
      = [Call pthread_attr_init 0;
         Call (pthread_create (fresh_address (heap w))) 0;
         Call pthread_attr_destroy 0].
Proof.
  unfold Thread_Start. run.
  next_call; [ next_call; [ next_call | ] | ];
    try by_build e; events; simpl;
    (split; intros H; first [ reflexivity | inversion H; contradiction ]).
Qed.

Lemma Thread_Start_all_calls_succeed name function parameter e w :
  (forall c rc,
     In (Call c rc)
        (new_events w (fst (Thread_Start name function parameter e w))) ->
     rc = 0) ->
  snd (Thread_Start name function parameter e w) = Ok 0.
Proof.
  unfold Thread_Start. run.
  next_call; [ next_call; [ next_call | ] | ];
    try by_build e; events; simpl; intros H;
    first
      [ reflexivity
      | exfalso;
        match goal with
        | Hn : ?r <> 0 |- _ =>
            apply Hn;
            first [ apply (H pthread_attr_init r); tauto
                  | apply (H (pthread_create (fresh_address (heap w))) r); tauto
                  | apply (H pthread_attr_destroy r); tauto ]
        end ].
Qed.

(** ** Thread::Start and OS failures *)

(** C1, as stated, fails.  With an OS that refuses [pthread_create] with
    EAGAIN, [Thread::Start] hands EAGAIN back to its caller and the
    process goes on: the failure is not fatal. *)
Lemma Thread_Start_failure_not_fatal :
  Thread_Start 1%N 2%N 3 (scripted_env RELEASE EAGAIN 0 0) empty_world
  = ({| heap := {[ 1%N := OThreadStartData {| tsd_name := 1%N;
                                               tsd_function := 2%N;
                                               tsd_parameter := 3 |} ]};
        tls_current := NULL;
        trace := [Call pthread_attr_init 0;
                  Call (pthread_create 1%N) EAGAIN] |}, Ok EAGAIN)
  /\ ~ os_failure_is_fatal (Thread_Start 1%N 2%N 3).
Proof.
  split; [ reflexivity | ].
  intros H.
  specialize (H (scripted_env RELEASE EAGAIN 0 0) empty_world
                (pthread_create 1%N) EAGAIN).
  assert (Hr : snd (Thread_Start 1%N 2%N 3 (scripted_env RELEASE EAGAIN 0 0)
                      empty_world) = Ok EAGAIN) by reflexivity.
  rewrite Hr in H. discriminate H.
  - vm_compute. auto.
  - discriminate.
Qed.

(** C1, amended.  [Thread::Start] never terminates the process: it makes
    OS calls, and when one of [pthread_attr_init], [pthread_create] and
    [pthread_attr_destroy] fails, it returns that call's non-zero result
    code to its caller.  It returns 0 when its calls have all succeeded,
    which is exactly when it has made the three calls and each has
    answered 0.  A failed OS call in the construction of a Mutex or of a
    Monitor and in the creation or deletion of a thread-local key is
    fatal.  A busy lock makes [TryLock] and [TryEnter] answer false. *)
Theorem Thread_Start_failure_returned name function parameter :
  os_failure_is_returned (Thread_Start name function parameter)
  /\ calls_os (Thread_Start name function parameter)
  /\ (forall e w, exists rc,
        snd (Thread_Start name function parameter e w) = Ok rc)
  /\ os_failure_is_fatal Mutex_ctor /\ calls_os Mutex_ctor
  /\ os_failure_is_fatal Monitor_ctor /\ calls_os Monitor_ctor
  /\ (forall destructor,
        os_failure_is_fatal (Thread_CreateThreadLocal destructor))
  /\ (forall key, os_failure_is_fatal (Thread_DeleteThreadLocal key))
  /\ (forall this e w,
        os e (trace w) pthread_mutex_trylock = EBUSY ->
        snd (Mutex_TryLock this e w) = Ok (false, this))
  /\ (forall this e w,
        os e (trace w) pthread_mutex_trylock = EBUSY ->
        snd (Monitor_TryEnter this e w) = Ok (false, this))
  /\ (forall e w,
        snd (Thread_Start name function parameter e w) = Ok 0
        <-> new_events w (fst (Thread_Start name function parameter e w))
            = [Call pthread_attr_init 0;
               Call (pthread_create (fresh_address (heap w))) 0;
               Call pthread_attr_destroy 0])
  /\ (forall e w,
        (forall c rc,
           In (Call c rc)
              (new_events w (fst (Thread_Start name function parameter e w))) ->
           rc = 0) ->
        snd (Thread_Start name function parameter e w) = Ok 0).
Proof.
  split; [ apply Thread_Start_os_failure_is_returned | ].
  split; [ apply Thread_Start_calls_os | ].
  split; [ intros e w; apply Thread_Start_never_fatal | ].
  split; [ apply Mutex_ctor_os_failure_is_fatal | ].
  split; [ apply Mutex_ctor_calls_os | ].
  split; [ apply Monitor_ctor_os_failure_is_fatal | ].
  split; [ apply Monitor_ctor_calls_os | ].
  split; [ apply Thread_CreateThreadLocal_os_failure_is_fatal | ].
  split; [ apply Thread_DeleteThreadLocal_os_failure_is_fatal | ].
  split; [ apply Mutex_TryLock_busy | ].
  split; [ apply Monitor_TryEnter_busy | ].
  split; [ intros e w; apply Thread_Start_zero_iff | ].
  intros e w. apply Thread_Start_all_calls_succeed.
Qed.

(** The amended C1 at work: a refused [pthread_create] is returned, three
    successful calls give 0, a refused [pthread_mutex_init] ends the
    process, a busy lock is answered with false. *)
Lemma Thread_Start_failure_returned_witness :
  snd (Thread_Start 1%N 2%N 3 (scripted_env DEBUG EAGAIN 0 0) empty_world)
  = Ok EAGAIN
  /\ snd (Thread_Start 1%N 2%N 3 (scripted_env DEBUG 0 0 0) empty_world)
     = Ok 0
  /\ snd (Mutex_ctor (scripted_env DEBUG 0 EINVAL 0) empty_world)
     = Fatal (PthreadError EINVAL)
  /\ snd (Mutex_TryLock {| mutex_owner_ := 9 |}
            (scripted_env DEBUG 0 EBUSY 0) empty_world)
     = Ok (false, {| mutex_owner_ := 9 |}).
Proof.
  pose proof (Thread_Start_failure_returned 1%N 2%N 3)
    as (Hret & _ & _ & Hmutex & _ & _ & _ & _ & _ & Hbusy & _ & Hzero & _).
  split; [ | split; [ | split ] ].
  - apply (Hret (scripted_env DEBUG EAGAIN 0 0) empty_world
             (pthread_create 1%N) EAGAIN).
    + vm_compute. auto.
    + discriminate.
  - apply (Hzero (scripted_env DEBUG 0 0 0) empty_world). reflexivity.
  - apply (Hmutex (scripted_env DEBUG 0 EINVAL 0) empty_world
             pthread_mutex_init EINVAL).
    + vm_compute. auto.
    + discriminate.
  - apply Hbusy. reflexivity.
Defined.

(** ** IsolateMessage *)

Lemma free_frame p e w q :
  q <> p -> heap (fst (free p e w)) !! q = heap w !! q.
Proof.
  intros Hq. unfold free.
  destruct (decide (p = NULL)); [ reflexivity | ].
  destruct (heap w !! p); simpl; [ | reflexivity ].
  apply lookup_delete_ne. congruence.
Qed.

Lemma free_null e w : free NULL e w = (w, Ok tt).
Proof. reflexivity. Qed.

Lemma free_live p e w :
  p <> NULL -> is_Some (heap w !! p) ->
  free p e w = ({| heap := delete p (heap w); tls_current := tls_current w;
                   trace := trace w |}, Ok tt).
Proof.
  intros Hp [o Ho]. unfold free.
  destruct (decide (p = NULL)); [ contradiction | ]. rewrite Ho. reflexivity.
Qed.

(** C2.  Destroying a message releases its byte buffer: a live buffer is
    gone from the heap afterwards and nothing else changes.  Without a
    buffer (a null pointer, as in every message built from an argument
    list) destruction changes nothing.  No allocation other than the byte
    buffer is ever released or modified, so the argument list of a
    constructed message is left alone. *)
Theorem IsolateMessage_dtor_frees_only_data (this : Message.IsolateMessage) e w :
  (Message.data this = NULL ->
   Message.IsolateMessage_dtor this e w = (w, Ok tt))
  /\ (forall dest n av,
        Message.IsolateMessage_dtor (Message.IsolateMessage_args dest n av) e w
        = (w, Ok tt))
  /\ (Message.data this <> NULL -> is_Some (heap w !! Message.data this) ->
      Message.IsolateMessage_dtor this e w
      = ({| heap := delete (Message.data this) (heap w);
            tls_current := tls_current w; trace := trace w |}, Ok tt)
      /\ heap (fst (Message.IsolateMessage_dtor this e w))
           !! Message.data this = None)
  /\ (forall p, p <> Message.data this ->
        heap (fst (Message.IsolateMessage_dtor this e w)) !! p = heap w !! p)
  /\ (Message.constructed this -> Message.argv this <> NULL ->
      Message.IsolateMessage_dtor this e w = (w, Ok tt)).
Proof.
  unfold Message.IsolateMessage_dtor, Message.data, Message.argv.
  split; [ | split; [ | split; [ | split ] ] ].
  - intros ->. apply free_null.
  - intros dest n av. apply free_null.
  - intros Hp Hl. rewrite (free_live _ e w Hp Hl). simpl.
    split; [ reflexivity | apply lookup_delete_eq ].
  - intros p Hp. apply free_frame. exact Hp.
  - intros Hc Hav. destruct Hc as [dest d len | dest n av]; simpl in *.
    + contradiction.
    + apply free_null.
Qed.

(** C2 at work: a message that owns the buffer at address 5 and sits next
    to an argument vector at address 6. *)
Lemma IsolateMessage_dtor_frees_only_data_witness :
  let w := {| heap := {[ 5%N := OBytes [1; 2; 3; 4]; 6%N := OBytes [0] ]};
              tls_current := NULL; trace := [] |} in
  let m := Message.IsolateMessage_bytes 1 5%N 4 in
  let w' := fst (Message.IsolateMessage_dtor m (scripted_env DEBUG 0 0 0) w) in
  heap w' !! 5%N = None /\ heap w' !! 6%N = Some (OBytes [0])
  /\ Message.IsolateMessage_dtor (Message.IsolateMessage_args 1 2 6%N)
       (scripted_env DEBUG 0 0 0) w = (w, Ok tt).
Proof.
  intros w m w'.
  pose proof (IsolateMessage_dtor_frees_only_data m (scripted_env DEBUG 0 0 0) w)
    as (_ & _ & Hlive & Hframe & _).
  pose proof (IsolateMessage_dtor_frees_only_data
                (Message.IsolateMessage_args 1 2 6%N)
                (scripted_env DEBUG 0 0 0) w) as (_ & _ & _ & _ & Hargs).
  split; [ | split ].
  - apply Hlive; [ discriminate | vm_compute; eauto ].
  - unfold w'. rewrite Hframe by discriminate. reflexivity.
  - apply Hargs; [ constructor | discriminate ].
Defined.

(** C3, as stated, fails.  Built from a null buffer of length zero, a
    message has no side that is non-null or non-zero, and it is the very
    message the other constructor builds from no arguments: it does not
    carry exactly one payload, and nothing tells its shape. *)
Lemma IsolateMessage_empty_payload_ambiguous :
  Message.constructed (Message.IsolateMessage_bytes 1 NULL 0)
  /\ ~ Message.has_bytes (Message.IsolateMessage_bytes 1 NULL 0)
  /\ ~ Message.has_args (Message.IsolateMessage_bytes 1 NULL 0)
  /\ Message.IsolateMessage_bytes 1 NULL 0 = Message.IsolateMessage_args 1 0 NULL.
Proof.
  split; [ constructor | ].
  split; [ intros [H | H]; apply H; reflexivity | ].
  split; [ intros [H | H]; apply H; reflexivity | reflexivity ].
Qed.

(** C3, amended.  A message built from a byte buffer has a null argument
    vector and a zero argument count; a message built from an argument list
    has a null buffer and a zero length.  So no constructed message has
    both payloads, a payload that is present tells which constructor built
    the message, and a constructed message without any payload is the
    empty message that both constructors build. *)
Theorem IsolateMessage_payload_exclusive :
  (forall dest d len,
     Message.argv (Message.IsolateMessage_bytes dest d len) = NULL
     /\ Message.argc (Message.IsolateMessage_bytes dest d len) = 0
     /\ Message.data (Message.IsolateMessage_bytes dest d len) = d
     /\ Message.length (Message.IsolateMessage_bytes dest d len) = len
     /\ Message.dest_port (Message.IsolateMessage_bytes dest d len) = dest)
  /\ (forall dest n av,
        Message.data (Message.IsolateMessage_args dest n av) = NULL
        /\ Message.length (Message.IsolateMessage_args dest n av) = 0
        /\ Message.argv (Message.IsolateMessage_args dest n av) = av
        /\ Message.argc (Message.IsolateMessage_args dest n av) = n
        /\ Message.dest_port (Message.IsolateMessage_args dest n av) = dest)
  /\ (forall m, Message.constructed m ->
        ~ (Message.has_bytes m /\ Message.has_args m))
  /\ (forall m, Message.constructed m -> Message.has_bytes m ->
        m = Message.IsolateMessage_bytes
              (Message.dest_port m) (Message.data m) (Message.length m))
  /\ (forall m, Message.constructed m -> Message.has_args m ->
        m = Message.IsolateMessage_args
              (Message.dest_port m) (Message.argc m) (Message.argv m))
  /\ (forall m, Message.constructed m ->
        ~ Message.has_bytes m -> ~ Message.has_args m ->
        m = Message.IsolateMessage_bytes (Message.dest_port m) NULL 0
        /\ m = Message.IsolateMessage_args (Message.dest_port m) 0 NULL).
Proof.
  split; [ | split; [ | split; [ | split; [ | split ] ] ] ].
  - intros. repeat split.
  - intros. repeat split.
  - intros m [dest d len | dest n av] [Hb Ha];
      [ destruct Ha as [Ha | Ha] | destruct Hb as [Hb | Hb] ];
      apply Ha || apply Hb; reflexivity.
  - intros m [dest d len | dest n av] Hb; [ reflexivity | ].
    destruct Hb as [Hb | Hb]; exfalso; apply Hb; reflexivity.
  - intros m [dest d len | dest n av] Ha; [ | reflexivity ].
    destruct Ha as [Ha | Ha]; exfalso; apply Ha; reflexivity.
  - unfold Message.has_bytes, Message.has_args.
    intros m [dest d len | dest n av] Hb Ha; simpl in *.
    + destruct (decide (d = NULL)) as [-> | Hd]; [ | tauto ].
      destruct (decide (len = 0)) as [-> | Hl]; [ | tauto ].
      split; reflexivity.
    + destruct (decide (av = NULL)) as [-> | Hd]; [ | tauto ].
      destruct (decide (n = 0)) as [-> | Hl]; [ | tauto ].
      split; reflexivity.
Qed.

(** The amended C3 on one message of each shape. *)
Lemma IsolateMessage_payload_exclusive_witness :
  ~ (Message.has_bytes (Message.IsolateMessage_bytes 1 5%N 4)
     /\ Message.has_args (Message.IsolateMessage_bytes 1 5%N 4))
  /\ Message.IsolateMessage_args 1 2 6%N
     = Message.IsolateMessage_args 1 2 6%N.
Proof.
  pose proof IsolateMessage_payload_exclusive as (_ & _ & Hex & _ & Hargs & _).
  split.
  - apply Hex. constructor.
  - apply (Hargs (Message.IsolateMessage_args 1 2 6%N)).
    + constructor.
    + left. discriminate.
Defined.

(** ** Monitor::WaitUntilNanos *)

#[local] Arguments CInt.static_cast : simpl never.
#[local] Arguments Z.quot : simpl never.
#[local] Arguments Z.rem : simpl never.
#[local] Arguments Z.gtb : simpl never.
#[local] Arguments Z.eqb : simpl never.

Lemma int32_clamped_in_range secs :
  kMinInt32 <= secs ->
  CInt.in_range CInt.int32_t (if secs >? kMaxInt32 then kMaxInt32 else secs).
Proof.
  intros Hlo. unfold CInt.in_range.
  change (CInt.min_value CInt.int32_t) with (-2147483648).
  change (CInt.max_value CInt.int32_t) with 2147483647.
  unfold kMinInt32, kMaxInt32 in *.
  destruct (Z.gtb_spec secs 2147483647); lia.
Qed.

Lemma nanos_in_long deadline :
  CInt.in_range CInt.long (Z.rem deadline kNanosecondsPerSecond).
Proof.
  unfold CInt.in_range.
  change (CInt.min_value CInt.long) with (-9223372036854775808).
  change (CInt.max_value CInt.long) with 9223372036854775807.
  pose proof (Z.rem_bound_abs deadline kNanosecondsPerSecond) as Hb.
  unfold kNanosecondsPerSecond in *. lia.
Qed.

Lemma clamp_is_min secs :
  (if secs >? kMaxInt32 then kMaxInt32 else secs) = Z.min secs kMaxInt32.
Proof. destruct (Z.gtb_spec secs kMaxInt32); lia. Qed.

(** The events of a call of [WaitUntilNanos]: none when the DEBUG owner
    check fails, the timed wait and nothing else otherwise. *)
Lemma WaitUntilNanos_events this deadline e w :
  let secs := Z.quot deadline kNanosecondsPerSecond in
  let ts := {| tv_sec := CInt.static_cast CInt.int32_t
                           (if secs >? kMaxInt32 then kMaxInt32 else secs);
               tv_nsec := CInt.static_cast CInt.long
                            (Z.rem deadline kNanosecondsPerSecond) |} in
  new_events w (fst (Monitor_WaitUntilNanos this deadline e w))
  = if passes_held_check e (monitor_owner_ this)
    then [Call (pthread_cond_timedwait ts) (os e (trace w) (pthread_cond_timedwait ts))]
    else [].
Proof.
  intros secs ts. unfold Monitor_WaitUntilNanos, passes_held_check. run.
  fold secs. fold ts.
  by_build e.
  - destruct (monitor_owner_ this =? pthread_self e); simpl.
    + fold ts. generalize (os e (trace w) (pthread_cond_timedwait ts)).
      intros r.
      destruct ((r =? 0) || (r =? ETIMEDOUT)); simpl; events; reflexivity.
    + events. reflexivity.
  - events. reflexivity.
Qed.

Lemma WaitUntilNanos_result this deadline e w :
  let secs := Z.quot deadline kNanosecondsPerSecond in
  let ts := {| tv_sec := CInt.static_cast CInt.int32_t
                           (if secs >? kMaxInt32 then kMaxInt32 else secs);
               tv_nsec := CInt.static_cast CInt.long
                            (Z.rem deadline kNanosecondsPerSecond) |} in
  let r := os e (trace w) (pthread_cond_timedwait ts) in
  let retval := if r =? ETIMEDOUT then kTimedOut else kNotified in
  snd (Monitor_WaitUntilNanos this deadline e w)
  = if passes_held_check e (monitor_owner_ this)
    then match build e with
         | DEBUG =>
             if (r =? 0) || (r =? ETIMEDOUT)
             then Ok (retval, {| monitor_owner_ := pthread_self e |})
             else Fatal (AssertionFailed
                           "(result == 0) || (result == ETIMEDOUT)")
         | RELEASE => Ok (retval, this)
         end
    else Fatal (AssertionFailed "owner_ == Thread::GetCurrentThreadId()").
Proof.
  intros secs ts r retval. subst retval r ts secs.
  unfold Monitor_WaitUntilNanos, passes_held_check. run.
  by_build e.
  - destruct (monitor_owner_ this =? pthread_self e); simpl; [ | reflexivity ].
    match goal with
    | |- context [ os e (trace w) ?c ] => generalize (os e (trace w) c)
    end.
    intros r. destruct ((r =? 0) || (r =? ETIMEDOUT)); simpl; reflexivity.
  - destruct this. reflexivity.
Qed.

(** C4, as stated, fails.  The deadline -2147483649000000000 is a value of
    [int64_t]; its quotient by one billion, -2147483649, does not exceed
    kMaxInt32, so it is not clamped, and the cast to [int32_t] wraps it to
    2147483647. *)
Lemma WaitUntilNanos_negative_deadline_wraps :
  CInt.in_range CInt.int64_t (-2147483649000000000)
  /\ Z.quot (-2147483649000000000) kNanosecondsPerSecond = -2147483649
  /\ new_events empty_world
       (fst (Monitor_WaitUntilNanos {| monitor_owner_ := 7 |}
               (-2147483649000000000) (scripted_env DEBUG 0 0 0) empty_world))
     = [Call (pthread_cond_timedwait {| tv_sec := 2147483647; tv_nsec := 0 |}) 0].
Proof.
  split; [ | split ].
  - unfold CInt.in_range. vm_compute. split; discriminate.
  - reflexivity.
  - vm_compute. reflexivity.
Qed.

(** C4, amended.  For every deadline whose quotient by one billion is at
    least kMinInt32 (every deadline that is not negative, among others), the
    timespec handed to the OS wait has, as seconds, the quotient of the
    deadline by one billion, replaced by kMaxInt32 when it exceeds that
    bound, and, as nanoseconds, the remainder of that division; both fit
    their fields, nothing wraps.  The wait is issued whenever the owner
    check lets the caller pass. *)
Theorem WaitUntilNanos_timespec_clamped this deadline e w :
  kMinInt32 <= Z.quot deadline kNanosecondsPerSecond ->
  (forall ts r,
     In (Call (pthread_cond_timedwait ts) r)
        (new_events w (fst (Monitor_WaitUntilNanos this deadline e w))) ->
     tv_sec ts = Z.min (Z.quot deadline kNanosecondsPerSecond) kMaxInt32
     /\ tv_nsec ts = Z.rem deadline kNanosecondsPerSecond
     /\ CInt.in_range CInt.int32_t (tv_sec ts)
     /\ CInt.in_range CInt.long (tv_nsec ts))
  /\ (passes_held_check e (monitor_owner_ this) = true ->
      exists ts r,
        new_events w (fst (Monitor_WaitUntilNanos this deadline e w))
        = [Call (pthread_cond_timedwait ts) r]).
Proof.
  intros Hlo. rewrite WaitUntilNanos_events. split.
  - destruct (passes_held_check e (monitor_owner_ this)); [ | intros ts r [] ].
    intros ts r [Hin | []]. inversion Hin as [[Hts Hr]]. clear Hin Hr. simpl.
    pose proof (int32_clamped_in_range _ Hlo) as Hs.
    pose proof (nanos_in_long deadline) as Hn.
    rewrite !static_cast_in_range by (assumption || reflexivity).
    rewrite <- clamp_is_min. auto.
  - intros ->. eauto.
Qed.

(** The amended C4 on a deadline far beyond what [int32_t] seconds hold. *)
Lemma WaitUntilNanos_timespec_clamped_witness :
  new_events empty_world
    (fst (Monitor_WaitUntilNanos {| monitor_owner_ := 7 |}
            9223372036854775807 (scripted_env DEBUG 0 0 0) empty_world))
  = [Call (pthread_cond_timedwait
             {| tv_sec := 2147483647; tv_nsec := 854775807 |}) 0]
  /\ tv_sec {| tv_sec := 2147483647; tv_nsec := 854775807 |}
     = Z.min (Z.quot 9223372036854775807 kNanosecondsPerSecond) kMaxInt32.
Proof.
  split; [ vm_compute; reflexivity | ].
  apply (WaitUntilNanos_timespec_clamped {| monitor_owner_ := 7 |}
           9223372036854775807 (scripted_env DEBUG 0 0 0) empty_world)
    with (r := 0).
  - vm_compute. discriminate.
  - vm_compute. auto.
Defined.




(** ** Mutex::TryLock and Monitor::TryEnter *)

Lemma Mutex_TryLock_run this e w :
  let r := os e (trace w) pthread_mutex_trylock in
  Mutex_TryLock this e w
  = ({| heap := heap w; tls_current := tls_current w;
        trace := trace w ++ [Call pthread_mutex_trylock r] |},
     if r =? EBUSY then Ok (false, this)
     else match build e with
          | DEBUG =>
              if r =? 0
              then if mutex_owner_ this =? kInvalidThreadId
                   then Ok (true, {| mutex_owner_ := pthread_self e |})
                   else Fatal (AssertionFailed
                                 "owner_ == Thread::kInvalidThreadId")
              else Fatal (PthreadError r)
          | RELEASE => Ok (true, this)
          end).
Proof.
  intros r. subst r. unfold Mutex_TryLock. run.
  generalize (os e (trace w) pthread_mutex_trylock). intros r.
  destruct (r =? EBUSY); [ reflexivity | ].
  by_build e.
  - destruct (r =? 0); simpl; [ | reflexivity ].
    destruct (mutex_owner_ this =? kInvalidThreadId); reflexivity.
  - destruct this. reflexivity.
Qed.

Lemma Monitor_TryEnter_run this e w :
  let r := os e (trace w) pthread_mutex_trylock in
  Monitor_TryEnter this e w
  = ({| heap := heap w; tls_current := tls_current w;
        trace := trace w ++ [Call pthread_mutex_trylock r] |},
     if r =? EBUSY then Ok (false, this)
     else match build e with
          | DEBUG =>
              if r =? 0
              then if monitor_owner_ this =? kInvalidThreadId
                   then Ok (true, {| monitor_owner_ := pthread_self e |})
                   else Fatal (AssertionFailed
                                 "owner_ == Thread::kInvalidThreadId")
              else Fatal (PthreadError r)
          | RELEASE => Ok (true, this)
          end).
Proof.
  intros r. subst r. unfold Monitor_TryEnter. run.
  generalize (os e (trace w) pthread_mutex_trylock). intros r.
  destruct (r =? EBUSY); [ reflexivity | ].
  by_build e.
  - destruct (r =? 0); simpl; [ | reflexivity ].
    destruct (monitor_owner_ this =? kInvalidThreadId); reflexivity.
  - destruct this. reflexivity.
Qed.

(** The contract follows from the shape of a run, whatever the object. *)
Lemma try_lock_contract_of_run {T} (owner_of : T -> Z) (mark : Z -> T)
  (try : T -> M (bool * T)) :
  (forall o, owner_of (mark o) = o) ->
  (forall this e w,
     let r := os e (trace w) pthread_mutex_trylock in
     try this e w
     = ({| heap := heap w; tls_current := tls_current w;
           trace := trace w ++ [Call pthread_mutex_trylock r] |},
        if r =? EBUSY then Ok (false, this)
        else match build e with
             | DEBUG =>
                 if r =? 0
                 then if owner_of this =? kInvalidThreadId
                      then Ok (true, mark (pthread_self e))
                      else Fatal (AssertionFailed
                                    "owner_ == Thread::kInvalidThreadId")
                 else Fatal (PthreadError r)
             | RELEASE => Ok (true, this)
             end)) ->
  try_lock_contract owner_of try.
Proof.
  intros Hmark Hrun this e w. rewrite Hrun. simpl.
  unfold passes_unheld_check.
  generalize (os e (trace w) pthread_mutex_trylock). intros r.
  split; [ apply new_events_app | ].
  destruct (Z.eqb_spec r EBUSY) as [Hbusy | Hbusy].
  { split; [ split; eauto | ].
    split; [ reflexivity | ].
    split; [ intros this' H; discriminate H | ].
    split; [ intros H0; rewrite Hbusy in H0; discriminate H0 | ].
    split; intros; contradiction. }
  split; [ split; [ | contradiction ] | ].
  { intros [this' H].
    destruct (build e); [ | discriminate H ].
    destruct (r =? 0); [ | discriminate H ].
    destruct (owner_of this =? kInvalidThreadId); discriminate H. }
  split; [ contradiction | ].
  destruct (build e) eqn:Hb.
  - destruct (Z.eqb_spec r 0) as [H0 | H0].
    + destruct (Z.eqb_spec (owner_of this) kInvalidThreadId) as [Ho | Ho].
      * split; [ intros this' H _; inversion H; auto | ].
        split; [ intros _ _; eauto | ].
        split; [ contradiction | discriminate ].
      * split; [ intros this' H; discriminate H | ].
        split; [ intros _ H; discriminate H | ].
        split; [ contradiction | discriminate ].
    + split; [ intros this' H; discriminate H | ].
      split; [ contradiction | ].
      split; [ reflexivity | discriminate ].
  - split; [ discriminate | ].
    split; [ intros _ _; exists this; split; [ reflexivity | discriminate ] | ].
    split; [ discriminate | reflexivity ].
Qed.

(** C6, as stated, fails.  In a build without assertions, with an OS that
    answers EINVAL to the try-lock, [TryLock] and [TryEnter] answer true:
    the error is not fatal, and true is answered although no lock was
    acquired. *)
Lemma TryLock_release_error_answers_true :
  EINVAL <> 0 /\ EINVAL <> EBUSY
  /\ Mutex_TryLock {| mutex_owner_ := kInvalidThreadId |}
       (scripted_env RELEASE 0 EINVAL 0) empty_world
     = ({| heap := ∅; tls_current := NULL;
           trace := [Call pthread_mutex_trylock EINVAL] |},
        Ok (true, {| mutex_owner_ := kInvalidThreadId |}))
  /\ Monitor_TryEnter {| monitor_owner_ := kInvalidThreadId |}
       (scripted_env RELEASE 0 EINVAL 0) empty_world
     = ({| heap := ∅; tls_current := NULL;
           trace := [Call pthread_mutex_trylock EINVAL] |},
        Ok (true, {| monitor_owner_ := kInvalidThreadId |})).
Proof.
  split; [ discriminate | ].
  split; [ discriminate | ].
  split; reflexivity.
Qed.

(** C6, amended.  [Mutex::TryLock] and [Monitor::TryEnter] make one OS
    call, the try-lock, so they do not block.  Each answers false exactly
    when the OS says EBUSY.  In a DEBUG build each answers true only after
    a successful try-lock, with the caller marked as owner, and any other
    OS result ends the process.  In a build without assertions every
    result other than EBUSY, success or error, is answered with true and
    no owner is marked.  An error other than EBUSY is never answered with
    false. *)
Theorem TryLock_false_iff_busy :
  try_lock_contract mutex_owner_ Mutex_TryLock
  /\ try_lock_contract monitor_owner_ Monitor_TryEnter.
Proof.
  split.
  - apply (try_lock_contract_of_run mutex_owner_ Build_Mutex);
      [ reflexivity | apply Mutex_TryLock_run ].
  - apply (try_lock_contract_of_run monitor_owner_ Build_Monitor);
      [ reflexivity | apply Monitor_TryEnter_run ].
Qed.

(** The amended C6 at work: a busy mutex, a free mutex, and a monitor
    for which the OS reports EINVAL in a DEBUG build. *)
Lemma TryLock_false_iff_busy_witness :
  snd (Mutex_TryLock {| mutex_owner_ := 9 |}
         (scripted_env DEBUG 0 EBUSY 0) empty_world)
  = Ok (false, {| mutex_owner_ := 9 |})
  /\ (exists this',
        snd (Mutex_TryLock {| mutex_owner_ := kInvalidThreadId |}
               (scripted_env DEBUG 0 0 0) empty_world) = Ok (true, this')
        /\ (DEBUG = DEBUG -> mutex_owner_ this' = 7))
  /\ snd (Monitor_TryEnter {| monitor_owner_ := kInvalidThreadId |}
            (scripted_env DEBUG 0 EINVAL 0) empty_world)
     = Fatal (PthreadError EINVAL).
Proof.
  destruct TryLock_false_iff_busy as [Hmutex Hmonitor].
  split; [ | split ].
  - apply (Hmutex {| mutex_owner_ := 9 |}
             (scripted_env DEBUG 0 EBUSY 0) empty_world).
    reflexivity.
  - apply (Hmutex {| mutex_owner_ := kInvalidThreadId |}
             (scripted_env DEBUG 0 0 0) empty_world); reflexivity.
  - apply (Hmonitor {| monitor_owner_ := kInvalidThreadId |}
             (scripted_env DEBUG 0 EINVAL 0) empty_world);
      [ discriminate | discriminate | reflexivity ].
Defined.

(** ** Monitor::Notify and Monitor::NotifyAll *)

Lemma Monitor_Notify_contract :
  notify_contract pthread_cond_signal Monitor_Notify.
Proof.
  intros this e w. unfold Monitor_Notify, passes_held_check. run. split.
  - intros Hb Ho. rewrite Hb. simpl.
    destruct (Z.eqb_spec (monitor_owner_ this) (pthread_self e));
      [ contradiction | reflexivity ].
  - by_build e; intros Hp; try rewrite Hp; simpl;
      generalize (os e (trace w) pthread_cond_signal); intros r;
      destruct (Z.eqb_spec r 0); simpl;
      (split; [ events; reflexivity | split; intros; congruence ]).
Qed.

Lemma Monitor_NotifyAll_contract :
  notify_contract pthread_cond_broadcast Monitor_NotifyAll.
Proof.
  intros this e w. unfold Monitor_NotifyAll, passes_held_check. run. split.
  - intros Hb Ho. rewrite Hb. simpl.
    destruct (Z.eqb_spec (monitor_owner_ this) (pthread_self e));
      [ contradiction | reflexivity ].
  - by_build e; intros Hp; try rewrite Hp; simpl;
      generalize (os e (trace w) pthread_cond_broadcast); intros r;
      destruct (Z.eqb_spec r 0); simpl;
      (split; [ events; reflexivity | split; intros; congruence ]).
Qed.

(** C8.  A DEBUG build asserts, through the tracked owner, that the caller
    of [Notify] or [NotifyAll] holds the monitor: a caller that does not
    ends the process before any OS call is made.  A caller that passes the
    check signals the condition ([Notify]) or broadcasts on it
    ([NotifyAll]) with one OS call, and a failure of that call is fatal. *)
Theorem Notify_requires_owner :
  notify_contract pthread_cond_signal Monitor_Notify
  /\ notify_contract pthread_cond_broadcast Monitor_NotifyAll.
Proof.
  split; [ apply Monitor_Notify_contract | apply Monitor_NotifyAll_contract ].
Qed.

(** C8 at work: a stranger's [Notify], the owner's [NotifyAll], and an
    owner's [Notify] that the OS refuses. *)
Lemma Notify_requires_owner_witness :
  Monitor_Notify {| monitor_owner_ := 9 |} (scripted_env DEBUG 0 0 0) empty_world
  = (empty_world, Fatal (AssertionFailed "IsOwnedByCurrentThread()"))
  /\ (new_events empty_world
        (fst (Monitor_NotifyAll {| monitor_owner_ := 7 |}
                (scripted_env DEBUG 0 0 0) empty_world))
      = [Call pthread_cond_broadcast 0]
      /\ snd (Monitor_NotifyAll {| monitor_owner_ := 7 |}
                (scripted_env DEBUG 0 0 0) empty_world) = Ok tt)
  /\ snd (Monitor_Notify {| monitor_owner_ := 7 |}
            (scripted_env DEBUG 0 0 EINVAL) empty_world)
     = Fatal (PthreadError EINVAL).
Proof.
  destruct Notify_requires_owner as [Hone Hall].
  split; [ | split ].
  - apply (Hone {| monitor_owner_ := 9 |} (scripted_env DEBUG 0 0 0)
             empty_world); [ reflexivity | discriminate ].
  - destruct (Hall {| monitor_owner_ := 7 |} (scripted_env DEBUG 0 0 0)
                empty_world) as [_ H].
    destruct (H eq_refl) as (Hev & Hok & _).
    split; [ exact Hev | apply Hok; reflexivity ].
  - destruct (Hone {| monitor_owner_ := 7 |} (scripted_env DEBUG 0 0 EINVAL)
                empty_world) as [_ H].
    destruct (H eq_refl) as (_ & _ & Hfail). apply Hfail. discriminate.
Defined.

(** ** Mutex::Lock and Mutex::Unlock *)

Lemma Mutex_Lock_run this e w :
  let r := os e (trace w) pthread_mutex_lock in
  Mutex_Lock this e w
  = ({| heap := heap w; tls_current := tls_current w;
        trace := trace w ++ [Call pthread_mutex_lock r] |},
     match build e with
     | DEBUG =>
         if r =? EDEADLK then Fatal (AssertionFailed "result != EDEADLK")
         else if r =? 0
         then if mutex_owner_ this =? kInvalidThreadId
              then Ok {| mutex_owner_ := pthread_self e |}
              else Fatal (AssertionFailed "owner_ == Thread::kInvalidThreadId")
         else Fatal (PthreadError r)
     | RELEASE => Ok this
     end).
Proof.
  intros r. subst r. unfold Mutex_Lock. run.
  generalize (os e (trace w) pthread_mutex_lock). intros r.
  by_build e.
  - destruct (r =? EDEADLK); simpl; [ reflexivity | ].
    destruct (r =? 0); simpl; [ | reflexivity ].
    destruct (mutex_owner_ this =? kInvalidThreadId); reflexivity.
  - destruct this. reflexivity.
Qed.

Lemma Mutex_Unlock_run this e w :
  let r := os e (trace w) pthread_mutex_unlock in
  Mutex_Unlock this e w
  = if passes_held_check e (mutex_owner_ this)
    then ({| heap := heap w; tls_current := tls_current w;
             trace := trace w ++ [Call pthread_mutex_unlock r] |},
          match build e with
          | DEBUG =>
              if r =? EPERM then Fatal (AssertionFailed "result != EPERM")
              else if r =? 0
              then Ok {| mutex_owner_ := kInvalidThreadId |}
              else Fatal (PthreadError r)
          | RELEASE => Ok this
          end)
    else (w, Fatal (AssertionFailed "owner_ == Thread::GetCurrentThreadId()")).
Proof.
  intros r. subst r. unfold Mutex_Unlock, passes_held_check. run.
  by_build e.
  - destruct (mutex_owner_ this =? pthread_self e); simpl; [ | reflexivity ].
    generalize (os e (trace w) pthread_mutex_unlock). intros r.
    destruct (r =? EPERM); simpl; [ reflexivity | ].
    destruct (r =? 0); reflexivity.
  - destruct this. reflexivity.
Qed.

Lemma Mutex_ctor_error_checking e w this :
  build e = DEBUG -> snd (Mutex_ctor e w) = Ok this ->
  In (Call (pthread_mutexattr_settype PTHREAD_MUTEX_ERRORCHECK) 0)
     (new_events w (fst (Mutex_ctor e w)))
  /\ mutex_owner_ this = kInvalidThreadId.
Proof.
  unfold Mutex_ctor. run. intros Hb. rewrite Hb. simpl.
  repeat (next_call; [ | discriminate ]).
  intros H. inversion H. events. simpl. auto.
Qed.

Lemma Mutex_Lock_by_owner_is_fatal this e w :
  build e = DEBUG -> mutex_owner_ this = pthread_self e ->
  pthread_self e <> kInvalidThreadId ->
  is_fatal (snd (Mutex_Lock this e w)) = true.
Proof.
  intros Hb Ho Hs. rewrite Mutex_Lock_run. simpl. rewrite Hb.
  destruct (_ =? EDEADLK); [ reflexivity | ].
  destruct (_ =? 0); [ | reflexivity ].
  destruct (Z.eqb_spec (mutex_owner_ this) kInvalidThreadId);
    [ congruence | reflexivity ].
Qed.

(** C9.  In a DEBUG build the mutex is created error-checking and unowned.
    There, [Lock] by the thread that already holds the mutex ends the
    process whatever the OS answers (EDEADLK, as an error-checking mutex
    does, fails the first assertion; success fails the owner mark), and
    [Unlock] by a thread that does not hold it ends the process on the
    owner mark before the OS is asked; EPERM from the OS fails an assertion
    too.  Locking an unheld mutex and unlocking a held one go through and
    move the owner mark, so that a second [Lock] right after a first one
    is fatal.  A build without assertions checks nothing. *)
Theorem Mutex_checked_ownership this e w :
  (build e = DEBUG -> mutex_owner_ this = pthread_self e ->
   pthread_self e <> kInvalidThreadId ->
   is_fatal (snd (Mutex_Lock this e w)) = true
   /\ (os e (trace w) pthread_mutex_lock = EDEADLK ->
       snd (Mutex_Lock this e w) = Fatal (AssertionFailed "result != EDEADLK")))
  /\ (build e = DEBUG -> mutex_owner_ this <> pthread_self e ->
      Mutex_Unlock this e w
      = (w, Fatal (AssertionFailed "owner_ == Thread::GetCurrentThreadId()")))
  /\ (build e = DEBUG -> mutex_owner_ this = pthread_self e ->
      os e (trace w) pthread_mutex_unlock = EPERM ->
      snd (Mutex_Unlock this e w) = Fatal (AssertionFailed "result != EPERM"))
  /\ (build e = DEBUG -> mutex_owner_ this = kInvalidThreadId ->
      os e (trace w) pthread_mutex_lock = 0 ->
      snd (Mutex_Lock this e w) = Ok {| mutex_owner_ := pthread_self e |})
  /\ (build e = DEBUG -> mutex_owner_ this = pthread_self e ->
      os e (trace w) pthread_mutex_unlock = 0 ->
      snd (Mutex_Unlock this e w) = Ok {| mutex_owner_ := kInvalidThreadId |})
  /\ (build e = DEBUG -> pthread_self e <> kInvalidThreadId ->
      forall held,
        snd (Mutex_Lock this e w) = Ok held ->
        is_fatal (snd (Mutex_Lock held e (fst (Mutex_Lock this e w)))) = true)
  /\ (build e = RELEASE ->
      snd (Mutex_Lock this e w) = Ok this
      /\ snd (Mutex_Unlock this e w) = Ok this)
  /\ (forall e0 w0 m,
        build e0 = DEBUG -> snd (Mutex_ctor e0 w0) = Ok m ->
        In (Call (pthread_mutexattr_settype PTHREAD_MUTEX_ERRORCHECK) 0)
           (new_events w0 (fst (Mutex_ctor e0 w0)))
        /\ mutex_owner_ m = kInvalidThreadId).
Proof.
  split; [ | split; [ | split; [ | split; [ | split; [ | split; [ | split ] ] ] ] ] ].
  - intros Hb Ho Hs.
    split; [ apply Mutex_Lock_by_owner_is_fatal; assumption | ].
    rewrite Mutex_Lock_run. simpl. rewrite Hb. intros ->. reflexivity.
  - intros Hb Ho. rewrite Mutex_Unlock_run. unfold passes_held_check.
    rewrite Hb.
    destruct (Z.eqb_spec (mutex_owner_ this) (pthread_self e));
      [ contradiction | reflexivity ].
  - intros Hb Ho Hr. rewrite Mutex_Unlock_run. unfold passes_held_check.
    rewrite Hb, Ho, Hr, Z.eqb_refl. reflexivity.
  - intros Hb Ho Hr. rewrite Mutex_Lock_run. simpl.
    rewrite Hb, Ho, Hr. reflexivity.
  - intros Hb Ho Hr. rewrite Mutex_Unlock_run. unfold passes_held_check.
    rewrite Hb, Ho, Hr, Z.eqb_refl. reflexivity.
  - intros Hb Hs held Hheld.
    apply Mutex_Lock_by_owner_is_fatal; [ exact Hb | | exact Hs ].
    rewrite Mutex_Lock_run in Hheld. simpl in Hheld. rewrite Hb in Hheld.
    destruct (_ =? EDEADLK); [ discriminate Hheld | ].
    destruct (_ =? 0); [ | discriminate Hheld ].
    destruct (_ =? kInvalidThreadId); [ | discriminate Hheld ].
    inversion Hheld. reflexivity.
  - intros Hb. rewrite Mutex_Lock_run, Mutex_Unlock_run.
    unfold passes_held_check. rewrite Hb. split; reflexivity.
  - intros e0 w0 m. apply Mutex_ctor_error_checking.
Qed.

(** C9 at work: thread 7 locks the mutex it holds, on an OS that reports
    EDEADLK; it unlocks a mutex held by thread 9; and it locks a free mutex
    twice in a row on an OS that lets both calls through. *)
Lemma Mutex_checked_ownership_witness :
  snd (Mutex_Lock {| mutex_owner_ := 7 |}
         (scripted_env DEBUG 0 EDEADLK 0) empty_world)
  = Fatal (AssertionFailed "result != EDEADLK")
  /\ Mutex_Unlock {| mutex_owner_ := 9 |} (scripted_env DEBUG 0 0 0) empty_world
     = (empty_world,
        Fatal (AssertionFailed "owner_ == Thread::GetCurrentThreadId()"))
  /\ is_fatal
       (snd (Mutex_Lock {| mutex_owner_ := 7 |} (scripted_env DEBUG 0 0 0)
               (fst (Mutex_Lock {| mutex_owner_ := kInvalidThreadId |}
                       (scripted_env DEBUG 0 0 0) empty_world))))
     = true.
Proof.
  pose proof (Mutex_checked_ownership {| mutex_owner_ := 7 |}
                (scripted_env DEBUG 0 EDEADLK 0) empty_world)
    as (Hlock & _).
  pose proof (Mutex_checked_ownership {| mutex_owner_ := 9 |}
                (scripted_env DEBUG 0 0 0) empty_world)
    as (_ & Hunlock & _).
  pose proof (Mutex_checked_ownership {| mutex_owner_ := kInvalidThreadId |}
                (scripted_env DEBUG 0 0 0) empty_world)
    as (_ & _ & _ & _ & _ & Htwice & _).
  split; [ | split ].
  - apply Hlock; [ reflexivity | reflexivity | discriminate | reflexivity ].
  - apply Hunlock; [ reflexivity | discriminate ].
  - apply Htwice; [ reflexivity | discriminate | reflexivity ].
Defined.

(** ** Thread identifiers *)

Lemma ThreadIdToIntPtr_asserts_size ThreadId id e w :
  build e = DEBUG -> CInt.sizeof ThreadId <> CInt.sizeof CInt.intptr_t ->
  Thread_ThreadIdToIntPtr ThreadId id e w
  = (w, Fatal (AssertionFailed "sizeof(id) == sizeof(intptr_t)")).
Proof.
  intros Hb Hs. unfold Thread_ThreadIdToIntPtr. run. rewrite Hb. simpl.
  change (CInt.sizeof CInt.intptr_t) with 8 in Hs.
  destruct (Z.eqb_spec (CInt.sizeof ThreadId) 8);
    [ contradiction | reflexivity ].
Qed.

Lemma ThreadIdToIntPtr_same_size ThreadId id e w :
  CInt.sizeof ThreadId = CInt.sizeof CInt.intptr_t ->
  Thread_ThreadIdToIntPtr ThreadId id e w
  = (w, Ok (CInt.static_cast CInt.intptr_t id)).
Proof.
  intros Hs. unfold Thread_ThreadIdToIntPtr. run.
  change (CInt.sizeof CInt.intptr_t) with 8 in Hs. rewrite Hs.
  destruct (build e); reflexivity.
Qed.

(** C10.  When [ThreadId] and [intptr_t] have the same size, converting a
    thread id to [intptr_t] and back gives the id again, and so does
    converting an [intptr_t] to a thread id and back: the two casts are
    inverse to each other. *)
Theorem ThreadId_IntPtr_round_trip (ThreadId : CInt.int_type) e w :
  CInt.sizeof ThreadId = CInt.sizeof CInt.intptr_t ->
  (forall id, CInt.in_range ThreadId id ->
     (let! p := Thread_ThreadIdToIntPtr ThreadId id in
      Thread_ThreadIdFromIntPtr ThreadId p) e w = (w, Ok id))
  /\ (forall p, CInt.in_range CInt.intptr_t p ->
        (let! id := Thread_ThreadIdFromIntPtr ThreadId p in
         Thread_ThreadIdToIntPtr ThreadId id) e w = (w, Ok p)).
Proof.
  intros Hs.
  assert (Hbits : CInt.bits ThreadId = CInt.bits CInt.intptr_t)
    by (unfold CInt.bits; rewrite Hs; reflexivity).
  assert (Hpos : 0 < CInt.bits ThreadId) by (rewrite Hbits; reflexivity).
  split.
  - intros id Hid. unfold bind.
    rewrite (ThreadIdToIntPtr_same_size _ _ _ _ Hs).
    unfold Thread_ThreadIdFromIntPtr, ret.
    rewrite static_cast_round_trip; auto.
  - intros p Hp. unfold bind, Thread_ThreadIdFromIntPtr, ret.
    rewrite (ThreadIdToIntPtr_same_size _ _ _ _ Hs).
    rewrite static_cast_round_trip; auto. reflexivity.
Qed.

(** C10 on the largest id of an unsigned 64-bit [ThreadId]: the cast to
    [intptr_t] makes it -1, the cast back restores it. *)
Lemma ThreadId_IntPtr_round_trip_witness :
  Thread_ThreadIdToIntPtr CInt.uintptr_t 18446744073709551615
    (scripted_env DEBUG 0 0 0) empty_world = (empty_world, Ok (-1))
  /\ (let! p := Thread_ThreadIdToIntPtr CInt.uintptr_t 18446744073709551615 in
      Thread_ThreadIdFromIntPtr CInt.uintptr_t p)
       (scripted_env DEBUG 0 0 0) empty_world
     = (empty_world, Ok 18446744073709551615).
Proof.
  split; [ vm_compute; reflexivity | ].
  apply (ThreadId_IntPtr_round_trip CInt.uintptr_t
           (scripted_env DEBUG 0 0 0) empty_world).
  - reflexivity.
  - unfold CInt.in_range. vm_compute. split; discriminate.
Defined.

(** ** The thread trampoline *)

Lemma fresh_address_not_null h : fresh_address h <> NULL.
Proof.
  unfold fresh_address. intros Hn.
  pose proof (is_fresh ({[NULL]} ∪ dom h)) as Hf.
  rewrite Hn in Hf. apply Hf. set_solver.
Qed.

Lemma fresh_address_unused h : h !! fresh_address h = None.
Proof.
  unfold fresh_address.
  pose proof (is_fresh ({[NULL]} ∪ dom h)) as Hf.
  apply not_elem_of_dom. set_solver.
Qed.

(** A successful [Thread::Start] has handed to [pthread_create] a live
    [ThreadStartData] that holds its three arguments. *)
Lemma Thread_Start_passes_data name function parameter e w :
  snd (Thread_Start name function parameter e w) = Ok 0 ->
  exists data_ptr,
    data_ptr <> NULL
    /\ In (Call (pthread_create data_ptr) 0)
          (new_events w (fst (Thread_Start name function parameter e w)))
    /\ heap (fst (Thread_Start name function parameter e w)) !! data_ptr
       = Some (OThreadStartData {| tsd_name := name;
                                   tsd_function := function;
                                   tsd_parameter := parameter |}).
Proof.
  unfold Thread_Start. run.
  next_call; [ | by_build e; intros H; inversion H; contradiction ].
  next_call; [ | by_build e; intros H; inversion H; contradiction ].
  next_call; [ | by_build e; intros H; inversion H; contradiction ].
  intros _. exists (fresh_address (heap w)).
  split; [ apply fresh_address_not_null | ].
  split; [ events; simpl; auto | apply lookup_insert_eq ].
Qed.

(** The trampoline up to the call of the entry function: the world in
    which that call is made. *)
Lemma ThreadStart_run data_ptr d e w :
  data_ptr <> NULL ->
  heap w !! data_ptr = Some (OThreadStartData d) ->
  let thread := fresh_address (delete data_ptr (heap w)) in
  let installed :=
    {| heap := <[thread := OThread {| thread_name := tsd_name d |}]>
                 (<[thread := OThread Thread_ctor]> (delete data_ptr (heap w)));
       tls_current := thread;
       trace := trace w |} in
  ThreadStart data_ptr e w
  = (invoke (tsd_function d) (tsd_parameter d) >> ret NULL) e installed.
Proof.
  intros Hnn Hd thread installed.
  unfold ThreadStart, load_ThreadStartData, bind at 1. rewrite Hd.
  unfold free, bind at 1.
  destruct (decide (data_ptr = NULL)); [ contradiction | ]. rewrite Hd.
  unfold new, bind at 1. simpl. fold thread.
  unfold Thread_SetCurrent, bind at 1. simpl.
  unfold Thread_set_name, bind at 1. simpl.
  rewrite lookup_insert_eq. reflexivity.
Qed.

(** C7.  A successful [Thread::Start] passes its name, entry function and
    parameter to the new thread.  There the trampoline, before the call of
    the entry function, has allocated a new [Thread] object, has made it
    the thread-local current thread and has given it the name; the call of
    the entry function with its parameter is the next thing that happens,
    so the entry function finds the current thread. *)
Theorem ThreadStart_installs_context_first name function parameter e w :
  snd (Thread_Start name function parameter e w) = Ok 0 ->
  exists data_ptr,
    In (Call (pthread_create data_ptr) 0)
       (new_events w (fst (Thread_Start name function parameter e w)))
    /\ forall e' w',
         heap w' !! data_ptr
         = heap (fst (Thread_Start name function parameter e w)) !! data_ptr ->
         exists thread installed,
           ThreadStart data_ptr e' w'
           = (invoke function parameter >> ret NULL) e' installed
           /\ thread <> NULL
           /\ delete data_ptr (heap w') !! thread = None
           /\ Thread_Current e' installed = (installed, Ok thread)
           /\ heap installed !! thread
              = Some (OThread {| thread_name := name |})
           /\ trace installed = trace w'.
Proof.
  intros Hok.
  destruct (Thread_Start_passes_data _ _ _ _ _ Hok) as (data_ptr & Hnn & Hin & Hd).
  exists data_ptr. split; [ exact Hin | ].
  intros e' w' Hshared. rewrite Hd in Hshared.
  exists (fresh_address (delete data_ptr (heap w'))). eexists.
  split; [ apply (ThreadStart_run data_ptr _ e' w' Hnn Hshared) | ].
  split; [ apply fresh_address_not_null | ].
  split; [ apply fresh_address_unused | ].
  split; [ reflexivity | ].
  split; [ apply lookup_insert_eq | reflexivity ].
Qed.

(** C7 at work: thread 7 starts a thread named 4 whose entry function 2
    reports the current thread it finds; the report follows the call and
    names the new thread object, which carries the name. *)
Lemma ThreadStart_installs_context_first_witness :
  let spawned := fst (Thread_Start 4%N 2%N 3 (scripted_env DEBUG 0 0 0)
                        empty_world) in
  let born := {| heap := heap spawned; tls_current := NULL; trace := [] |} in
  (exists data_ptr,
     In (Call (pthread_create data_ptr) 0) (new_events empty_world spawned)
     /\ forall e' w',
          heap w' !! data_ptr = heap spawned !! data_ptr ->
          exists thread installed,
            ThreadStart data_ptr e' w'
            = (invoke 2%N 3 >> ret NULL) e' installed
            /\ thread <> NULL
            /\ delete data_ptr (heap w') !! thread = None
            /\ Thread_Current e' installed = (installed, Ok thread)
            /\ heap installed !! thread = Some (OThread {| thread_name := 4%N |})
            /\ trace installed = trace w')
  /\ trace (fst (ThreadStart 1%N probe_env born)) = [Invoke 2%N 3; Stderr 1]
  /\ heap (fst (ThreadStart 1%N probe_env born)) !! 1%N
     = Some (OThread {| thread_name := 4%N |}).
Proof.
  intros spawned born. split; [ | split; reflexivity ].
  apply (ThreadStart_installs_context_first 4%N 2%N 3
           (scripted_env DEBUG 0 0 0) empty_world).
  reflexivity.
Defined.

(** * Further properties of the code *)

(** ** Shapes of the runs of Monitor::Enter, Exit and Wait *)

Lemma Monitor_Enter_run this e w :
  let r := os e (trace w) pthread_mutex_lock in
  Monitor_Enter this e w
  = (after_events w [Call pthread_mutex_lock r],
     if r =? 0
     then match build e with
          | DEBUG =>
              if monitor_owner_ this =? kInvalidThreadId
              then Ok {| monitor_owner_ := pthread_self e |}
              else Fatal (AssertionFailed "owner_ == Thread::kInvalidThreadId")
          | RELEASE => Ok this
          end
     else Fatal (PthreadError r)).
Proof.
  intros r. subst r. unfold Monitor_Enter, after_events. run.
  generalize (os e (trace w) pthread_mutex_lock). intros r.
  destruct (r =? 0); simpl; [ | reflexivity ].
  by_build e.
  - destruct (monitor_owner_ this =? kInvalidThreadId); reflexivity.
  - destruct this. reflexivity.
Qed.

Lemma Monitor_Exit_run this e w :
  let r := os e (trace w) pthread_mutex_unlock in
  Monitor_Exit this e w
  = if passes_held_check e (monitor_owner_ this)
    then (after_events w [Call pthread_mutex_unlock r],
          if r =? 0
          then match build e with
               | DEBUG => Ok {| monitor_owner_ := kInvalidThreadId |}
               | RELEASE => Ok this
               end
          else Fatal (PthreadError r))
    else (w, Fatal (AssertionFailed "owner_ == Thread::GetCurrentThreadId()")).
Proof.
  intros r. subst r. unfold Monitor_Exit, passes_held_check, after_events. run.
  by_build e.
  - destruct (monitor_owner_ this =? pthread_self e); simpl; [ | reflexivity ].
    generalize (os e (trace w) pthread_mutex_unlock). intros r.
    destruct (r =? 0); reflexivity.
  - generalize (os e (trace w) pthread_mutex_unlock). intros r.
    destruct (r =? 0); simpl; [ destruct this | ]; reflexivity.
Qed.

Lemma Monitor_Wait_run this e w :
  let r := os e (trace w) pthread_cond_wait in
  Monitor_Wait this e w
  = if passes_held_check e (monitor_owner_ this)
    then (after_events w [Call pthread_cond_wait r],
          if r =? 0
          then match build e with
               | DEBUG => Ok {| monitor_owner_ := pthread_self e |}
               | RELEASE => Ok this
               end
          else Fatal (PthreadError r))
    else (w, Fatal (AssertionFailed "owner_ == Thread::GetCurrentThreadId()")).
Proof.
  intros r. subst r. unfold Monitor_Wait, passes_held_check, after_events. run.
  by_build e.
  - destruct (monitor_owner_ this =? pthread_self e); simpl; [ | reflexivity ].
    generalize (os e (trace w) pthread_cond_wait). intros r.
    destruct (r =? 0); reflexivity.
  - generalize (os e (trace w) pthread_cond_wait). intros r.
    destruct (r =? 0); simpl; [ destruct this | ]; reflexivity.
Qed.

Lemma after_events_app w l k :
  after_events (after_events w l) k = after_events w (l ++ k).
Proof. unfold after_events. simpl. rewrite <- app_assoc. reflexivity. Qed.

Lemma new_events_after w l : new_events w (after_events w l) = l.
Proof. unfold after_events. apply new_events_app. Qed.

Lemma passes_unheld_owner e owner :
  passes_unheld_check e owner = true -> build e = DEBUG ->
  owner = kInvalidThreadId.
Proof.
  unfold passes_unheld_check. intros H Hb. rewrite Hb in H.
  apply Z.eqb_eq. exact H.
Qed.

Lemma passes_held_owner e owner :
  passes_held_check e owner = true -> build e = DEBUG ->
  owner = pthread_self e.
Proof.
  unfold passes_held_check. intros H Hb. rewrite Hb in H.
  apply Z.eqb_eq. exact H.
Qed.

(** ** Lock and unlock in sequence *)

(** X1.  On an OS that lets the calls through, locking a mutex that is
    not marked as held and unlocking it again leaves the mutex as it was,
    in a DEBUG build and in a build without owner tracking, whether the
    lock was taken with [Lock] or with [TryLock]; the OS has seen the lock
    call and the unlock call, in that order, and nothing else. *)
Theorem Mutex_Lock_Unlock_round_trip this e w :
  os_succeeds e -> passes_unheld_check e (mutex_owner_ this) = true ->
  (let! m := Mutex_Lock this in Mutex_Unlock m) e w
  = (after_events w [Call pthread_mutex_lock 0; Call pthread_mutex_unlock 0],
     Ok this)
  /\ (let! p := Mutex_TryLock this in Mutex_Unlock (snd p)) e w
     = (after_events w [Call pthread_mutex_trylock 0;
                        Call pthread_mutex_unlock 0], Ok this).
Proof.
  intros Hos Hp. unfold bind.
  rewrite Mutex_Lock_run, Mutex_TryLock_run. rewrite !Hos.
  change (0 =? EBUSY) with false. change (0 =? EDEADLK) with false.
  change (0 =? 0) with true. cbv iota.
  destruct (build e) eqn:Hb.
  - rewrite (passes_unheld_owner _ _ Hp Hb).
    change (kInvalidThreadId =? kInvalidThreadId) with true. cbv iota.
    rewrite !Mutex_Unlock_run. unfold passes_held_check. rewrite Hb. simpl.
    rewrite Z.eqb_refl, !Hos.
    change (0 =? EPERM) with false. change (0 =? 0) with true. cbv iota.
    unfold after_events. simpl. rewrite <- !app_assoc. simpl.
    destruct this as [o]. simpl in Hp.
    rewrite (passes_unheld_owner _ _ Hp Hb). split; reflexivity.
  - rewrite !Mutex_Unlock_run. unfold passes_held_check. rewrite Hb. simpl.
    unfold after_events. simpl. rewrite <- !app_assoc. simpl.
    rewrite !Hos. split; reflexivity.
Qed.

(** X1 at work, in a DEBUG build. *)
Lemma Mutex_Lock_Unlock_round_trip_witness :
  (let! m := Mutex_Lock {| mutex_owner_ := kInvalidThreadId |} in
   Mutex_Unlock m) (scripted_env DEBUG 0 0 0) empty_world
  = (after_events empty_world
       [Call pthread_mutex_lock 0; Call pthread_mutex_unlock 0],
     Ok {| mutex_owner_ := kInvalidThreadId |}).
Proof.
  apply (Mutex_Lock_Unlock_round_trip {| mutex_owner_ := kInvalidThreadId |}
           (scripted_env DEBUG 0 0 0) empty_world).
  - intros tr c. destruct c; reflexivity.
  - reflexivity.
Defined.

(** X2.  In a DEBUG build a second [Unlock] right after a successful one
    ends the process, whatever the OS would answer: the first has cleared
    the owner mark, and the second fails on it before the OS is asked. *)
Theorem Mutex_second_Unlock_is_fatal this e w released :
  build e = DEBUG -> pthread_self e <> kInvalidThreadId ->
  snd (Mutex_Unlock this e w) = Ok released ->
  Mutex_Unlock released e (fst (Mutex_Unlock this e w))
  = (fst (Mutex_Unlock this e w),
     Fatal (AssertionFailed "owner_ == Thread::GetCurrentThreadId()")).
Proof.
  intros Hb Hs. rewrite (Mutex_Unlock_run this). unfold passes_held_check.
  rewrite Hb.
  destruct (mutex_owner_ this =? pthread_self e); [ | discriminate ].
  simpl.
  destruct (_ =? EPERM); [ discriminate | ].
  destruct (_ =? 0); [ | discriminate ].
  intros H. inversion H. subst released.
  rewrite Mutex_Unlock_run. unfold passes_held_check. rewrite Hb. simpl.
  destruct (Z.eqb_spec kInvalidThreadId (pthread_self e));
    [ congruence | reflexivity ].
Qed.

(** X2 at work: thread 7 unlocks its mutex twice. *)
Lemma Mutex_second_Unlock_is_fatal_witness :
  snd (Mutex_Unlock {| mutex_owner_ := kInvalidThreadId |}
         (scripted_env DEBUG 0 0 0)
         (fst (Mutex_Unlock {| mutex_owner_ := 7 |}
                 (scripted_env DEBUG 0 0 0) empty_world)))
  = Fatal (AssertionFailed "owner_ == Thread::GetCurrentThreadId()").
Proof.
  rewrite (Mutex_second_Unlock_is_fatal {| mutex_owner_ := 7 |}
             (scripted_env DEBUG 0 0 0) empty_world
             {| mutex_owner_ := kInvalidThreadId |});
    [ reflexivity | reflexivity | discriminate | reflexivity ].
Defined.

(** ** The monitor as a lock *)

(** X3.  On an OS that lets the calls through, entering a monitor that is
    not marked as held and leaving it again gives the monitor back as it
    was, in every build, whether it was entered with [Enter] or with
    [TryEnter]; the OS has seen the lock call and the unlock call. *)
Theorem Monitor_Enter_Exit_round_trip this e w :
  os_succeeds e -> passes_unheld_check e (monitor_owner_ this) = true ->
  (let! m := Monitor_Enter this in Monitor_Exit m) e w
  = (after_events w [Call pthread_mutex_lock 0; Call pthread_mutex_unlock 0],
     Ok this)
  /\ (let! p := Monitor_TryEnter this in Monitor_Exit (snd p)) e w
     = (after_events w [Call pthread_mutex_trylock 0;
                        Call pthread_mutex_unlock 0], Ok this).
Proof.
  intros Hos Hp. unfold bind.
  rewrite Monitor_Enter_run, Monitor_TryEnter_run. rewrite !Hos.
  change (0 =? EBUSY) with false. change (0 =? 0) with true. cbv iota.
  destruct (build e) eqn:Hb.
  - rewrite (passes_unheld_owner _ _ Hp Hb).
    change (kInvalidThreadId =? kInvalidThreadId) with true. cbv iota.
    rewrite !Monitor_Exit_run. unfold passes_held_check. rewrite Hb. simpl.
    rewrite Z.eqb_refl, !Hos. change (0 =? 0) with true. cbv iota.
    unfold after_events. simpl. rewrite <- !app_assoc. simpl.
    destruct this as [o]. simpl in Hp.
    rewrite (passes_unheld_owner _ _ Hp Hb). split; reflexivity.
  - rewrite !Monitor_Exit_run. unfold passes_held_check. rewrite Hb. simpl.
    rewrite !Hos. change (0 =? 0) with true. cbv iota.
    unfold after_events. simpl. rewrite <- !app_assoc. simpl.
    split; reflexivity.
Qed.

(** X3 at work, in a build without owner tracking. *)
Lemma Monitor_Enter_Exit_round_trip_witness :
  (let! m := Monitor_Enter {| monitor_owner_ := 9 |} in Monitor_Exit m)
    (scripted_env RELEASE 0 0 0) empty_world
  = (after_events empty_world
       [Call pthread_mutex_lock 0; Call pthread_mutex_unlock 0],
     Ok {| monitor_owner_ := 9 |}).
Proof.
  apply (Monitor_Enter_Exit_round_trip {| monitor_owner_ := 9 |}
           (scripted_env RELEASE 0 0 0) empty_world).
  - intros tr c. destruct c; reflexivity.
  - reflexivity.
Defined.

Lemma Monitor_Enter_by_owner_is_fatal this e w :
  build e = DEBUG -> monitor_owner_ this = pthread_self e ->
  pthread_self e <> kInvalidThreadId ->
  is_fatal (snd (Monitor_Enter this e w)) = true.
Proof.
  intros Hb Ho Hs. rewrite Monitor_Enter_run. simpl. rewrite Hb.
  destruct (_ =? 0); [ | reflexivity ].
  destruct (Z.eqb_spec (monitor_owner_ this) kInvalidThreadId);
    [ congruence | reflexivity ].
Qed.

(** X4.  The owner checks of the monitor in a DEBUG build.  [Enter] by the
    thread that holds the monitor ends the process whatever the OS answers,
    and so does a second [Enter] right after a successful one.  [Exit] by a
    thread that does not hold the monitor ends the process before the OS
    is asked, and so does a second [Exit] right after a successful one. *)
Theorem Monitor_checked_ownership this e w :
  build e = DEBUG -> pthread_self e <> kInvalidThreadId ->
  (monitor_owner_ this = pthread_self e ->
   is_fatal (snd (Monitor_Enter this e w)) = true)
  /\ (forall held, snd (Monitor_Enter this e w) = Ok held ->
        is_fatal (snd (Monitor_Enter held e (fst (Monitor_Enter this e w))))
        = true)
  /\ (monitor_owner_ this <> pthread_self e ->
      Monitor_Exit this e w
      = (w, Fatal (AssertionFailed "owner_ == Thread::GetCurrentThreadId()")))
  /\ (forall left, snd (Monitor_Exit this e w) = Ok left ->
        Monitor_Exit left e (fst (Monitor_Exit this e w))
        = (fst (Monitor_Exit this e w),
           Fatal (AssertionFailed "owner_ == Thread::GetCurrentThreadId()"))).
Proof.
  intros Hb Hs. split; [ | split; [ | split ] ].
  - intros Ho. apply Monitor_Enter_by_owner_is_fatal; assumption.
  - intros held Hheld.
    apply Monitor_Enter_by_owner_is_fatal; [ exact Hb | | exact Hs ].
    rewrite Monitor_Enter_run in Hheld. simpl in Hheld. rewrite Hb in Hheld.
    destruct (_ =? 0); [ | discriminate Hheld ].
    destruct (_ =? kInvalidThreadId); [ | discriminate Hheld ].
    inversion Hheld. reflexivity.
  - intros Ho. rewrite Monitor_Exit_run. unfold passes_held_check. rewrite Hb.
    destruct (Z.eqb_spec (monitor_owner_ this) (pthread_self e));
      [ contradiction | reflexivity ].
  - intros left. rewrite (Monitor_Exit_run this). unfold passes_held_check.
    rewrite Hb.
    destruct (monitor_owner_ this =? pthread_self e); [ | discriminate ].
    simpl. destruct (_ =? 0); [ | discriminate ].
    intros H. inversion H. subst left.
    rewrite Monitor_Exit_run. unfold passes_held_check. rewrite Hb. simpl.
    destruct (Z.eqb_spec kInvalidThreadId (pthread_self e));
      [ congruence | reflexivity ].
Qed.

(** X4 at work: thread 7 enters a free monitor twice, and leaves a monitor
    held by thread 9. *)
Lemma Monitor_checked_ownership_witness :
  is_fatal
    (snd (Monitor_Enter {| monitor_owner_ := 7 |} (scripted_env DEBUG 0 0 0)
            (fst (Monitor_Enter {| monitor_owner_ := kInvalidThreadId |}
                    (scripted_env DEBUG 0 0 0) empty_world)))) = true
  /\ Monitor_Exit {| monitor_owner_ := 9 |} (scripted_env DEBUG 0 0 0)
       empty_world
     = (empty_world,
        Fatal (AssertionFailed "owner_ == Thread::GetCurrentThreadId()")).
Proof.
  assert (Hs : pthread_self (scripted_env DEBUG 0 0 0) <> kInvalidThreadId)
    by discriminate.
  pose proof (Monitor_checked_ownership
                {| monitor_owner_ := kInvalidThreadId |}
                (scripted_env DEBUG 0 0 0) empty_world eq_refl Hs)
    as (_ & Htwice & _).
  pose proof (Monitor_checked_ownership {| monitor_owner_ := 9 |}
                (scripted_env DEBUG 0 0 0) empty_world eq_refl Hs)
    as (_ & _ & Hexit & _).
  split.
  - apply Htwice. reflexivity.
  - apply Hexit. discriminate.
Defined.

(** X5.  The critical section of a waiter, on an OS that lets the calls
    through: entering a free monitor, waiting on it, notifying all and
    leaving passes every owner check, in every build, gives the monitor
    back as it was, and shows the OS the four calls in order. *)
Theorem Monitor_critical_section this e w :
  os_succeeds e -> passes_unheld_check e (monitor_owner_ this) = true ->
  (let! m1 := Monitor_Enter this in
   let! m2 := Monitor_Wait m1 in
   Monitor_NotifyAll m2 >>
   Monitor_Exit m2) e w
  = (after_events w [Call pthread_mutex_lock 0; Call pthread_cond_wait 0;
                     Call pthread_cond_broadcast 0;
                     Call pthread_mutex_unlock 0], Ok this).
Proof.
  intros Hos Hp. unfold bind at 1.
  rewrite Monitor_Enter_run, Hos. change (0 =? 0) with true. cbv iota.
  destruct (build e) eqn:Hb.
  - rewrite (passes_unheld_owner _ _ Hp Hb).
    change (kInvalidThreadId =? kInvalidThreadId) with true. cbv iota.
    unfold bind at 1. rewrite Monitor_Wait_run. unfold passes_held_check.
    rewrite Hb. simpl. rewrite Z.eqb_refl, Hos.
    change (0 =? 0) with true. cbv iota.
    unfold bind at 1. unfold Monitor_NotifyAll. run. rewrite Hb. simpl.
    rewrite Z.eqb_refl. simpl. rewrite Hos. change (0 =? 0) with true. simpl.
    rewrite Monitor_Exit_run. unfold passes_held_check. rewrite Hb. simpl.
    rewrite Z.eqb_refl, Hos. change (0 =? 0) with true. cbv iota.
    unfold after_events. simpl. rewrite <- !app_assoc. simpl.
    destruct this as [o]. simpl in Hp.
    rewrite (passes_unheld_owner _ _ Hp Hb). reflexivity.
  - unfold bind at 1. rewrite Monitor_Wait_run. unfold passes_held_check.
    rewrite Hb. simpl. rewrite Hos. change (0 =? 0) with true. cbv iota.
    unfold bind at 1. unfold Monitor_NotifyAll. run. rewrite Hb. simpl.
    rewrite Hos. change (0 =? 0) with true. simpl.
    rewrite Monitor_Exit_run. unfold passes_held_check. rewrite Hb. simpl.
    rewrite Hos. change (0 =? 0) with true. cbv iota.
    unfold after_events. simpl. rewrite <- !app_assoc. reflexivity.
Qed.

(** X5 at work, in a DEBUG build. *)
Lemma Monitor_critical_section_witness :
  (let! m1 := Monitor_Enter {| monitor_owner_ := kInvalidThreadId |} in
   let! m2 := Monitor_Wait m1 in
   Monitor_NotifyAll m2 >>
   Monitor_Exit m2) (scripted_env DEBUG 0 0 0) empty_world
  = (after_events empty_world
       [Call pthread_mutex_lock 0; Call pthread_cond_wait 0;
        Call pthread_cond_broadcast 0; Call pthread_mutex_unlock 0],
     Ok {| monitor_owner_ := kInvalidThreadId |}).
Proof.
  apply (Monitor_critical_section {| monitor_owner_ := kInvalidThreadId |}
           (scripted_env DEBUG 0 0 0) empty_world).
  - intros tr c. destruct c; reflexivity.
  - reflexivity.
Defined.

(** ** Waiting *)

(** X6.  A wait gives the monitor back to its caller: whenever [Wait] or
    [WaitUntilNanos] returns, the monitor it returns is the monitor it was
    called on, owner mark included, in every build.  A caller that a DEBUG
    build does not find to be the owner never reaches the OS with
    [Wait]. *)
Theorem Monitor_Wait_keeps_ownership this e w :
  (forall m, snd (Monitor_Wait this e w) = Ok m ->
     m = this
     /\ new_events w (fst (Monitor_Wait this e w)) = [Call pthread_cond_wait 0])
  /\ (forall deadline res m,
        snd (Monitor_WaitUntilNanos this deadline e w) = Ok (res, m) ->
        m = this)
  /\ (passes_held_check e (monitor_owner_ this) = false ->
      Monitor_Wait this e w
      = (w, Fatal (AssertionFailed "owner_ == Thread::GetCurrentThreadId()"))).
Proof.
  split; [ | split ].
  - intros m. rewrite Monitor_Wait_run.
    destruct (passes_held_check e (monitor_owner_ this)) eqn:Hp;
      [ | discriminate ].
    simpl. destruct (Z.eqb_spec (os e (trace w) pthread_cond_wait) 0) as [Hr | Hr];
      [ | discriminate ].
    rewrite Hr. intros Hm. split.
    + destruct (build e) eqn:Hb; inversion Hm; [ | reflexivity ].
      destruct this as [o]. simpl in *.
      rewrite (passes_held_owner _ _ Hp Hb). reflexivity.
    + unfold after_events. apply new_events_app.
  - intros deadline res m. rewrite WaitUntilNanos_result.
    destruct (passes_held_check e (monitor_owner_ this)) eqn:Hp;
      [ | discriminate ].
    destruct (build e) eqn:Hb.
    + destruct (_ || _); [ | discriminate ].
      intros Hm. inversion Hm.
      destruct this as [o]. simpl in *.
      rewrite (passes_held_owner _ _ Hp Hb). reflexivity.
    + intros Hm. inversion Hm. reflexivity.
  - intros Hp. rewrite Monitor_Wait_run, Hp. reflexivity.
Qed.

(** X6 at work: thread 7 waits on the monitor it holds. *)
Lemma Monitor_Wait_keeps_ownership_witness :
  {| monitor_owner_ := 7 |} = {| monitor_owner_ := 7 |}
  /\ new_events empty_world
       (fst (Monitor_Wait {| monitor_owner_ := 7 |}
               (scripted_env DEBUG 0 0 0) empty_world))
     = [Call pthread_cond_wait 0].
Proof.
  apply (Monitor_Wait_keeps_ownership {| monitor_owner_ := 7 |}
           (scripted_env DEBUG 0 0 0) empty_world).
  reflexivity.
Defined.

(** X7.  A failed OS call inside [Monitor::Enter], [Monitor::Exit],
    [Monitor::Wait] or [Thread::SetThreadLocal] ends the process with the
    call's result code, in a DEBUG build and in any other build alike. *)
Theorem Monitor_os_failure_is_fatal :
  (forall this, os_failure_is_fatal (Monitor_Enter this))
  /\ (forall this, os_failure_is_fatal (Monitor_Exit this))
  /\ (forall this, os_failure_is_fatal (Monitor_Wait this))
  /\ (forall key value, os_failure_is_fatal (Thread_SetThreadLocal key value)).
Proof.
  unfold os_failure_is_fatal. split; [ | split; [ | split ] ].
  - intros this e w. rewrite Monitor_Enter_run. simpl.
    rewrite new_events_after. intros c rc [Hin | []] Hne.
    inversion Hin. subst.
    destruct (Z.eqb_spec (os e (trace w) pthread_mutex_lock) 0);
      [ contradiction | reflexivity ].
  - intros this e w. rewrite Monitor_Exit_run.
    destruct (passes_held_check e (monitor_owner_ this)); simpl.
    + rewrite new_events_after. intros c rc [Hin | []] Hne.
      inversion Hin. subst.
      destruct (Z.eqb_spec (os e (trace w) pthread_mutex_unlock) 0);
        [ contradiction | reflexivity ].
    + rewrite new_events_refl. intros c rc [].
  - intros this e w. rewrite Monitor_Wait_run.
    destruct (passes_held_check e (monitor_owner_ this)); simpl.
    + rewrite new_events_after. intros c rc [Hin | []] Hne.
      inversion Hin. subst.
      destruct (Z.eqb_spec (os e (trace w) pthread_cond_wait) 0);
        [ contradiction | reflexivity ].
    + rewrite new_events_refl. intros c rc [].
  - intros key value e w. unfold Thread_SetThreadLocal. run.
    by_build e; [ destruct (key =? kUnsetThreadLocalKey); simpl | ];
      try (next_call; failed_call).
    events. simpl. intros c rc [].
Qed.

(** X7 at work: the OS refuses the lock call of [Enter] in a build without
    assertions. *)
Lemma Monitor_os_failure_is_fatal_witness :
  snd (Monitor_Enter {| monitor_owner_ := kInvalidThreadId |}
         (scripted_env RELEASE 0 EINVAL 0) empty_world)
  = Fatal (PthreadError EINVAL).
Proof.
  destruct Monitor_os_failure_is_fatal as (Henter & _).
  apply (Henter {| monitor_owner_ := kInvalidThreadId |}
           (scripted_env RELEASE 0 EINVAL 0) empty_world
           pthread_mutex_lock EINVAL).
  - vm_compute. auto.
  - discriminate.
Defined.

(** ** Thread-local keys *)

Lemma Thread_CreateThreadLocal_run destructor e w :
  let r := os e (trace w) (pthread_key_create destructor) in
  let key := os_key e (trace w) in
  Thread_CreateThreadLocal destructor e w
  = (after_events w [Call (pthread_key_create destructor) r],
     if r =? 0
     then if passes_key_check e key then Ok key
          else Fatal (AssertionFailed "key != kUnsetThreadLocalKey")
     else Fatal (PthreadError r)).
Proof.
  intros r key. subst r key.
  unfold Thread_CreateThreadLocal, passes_key_check, after_events. run.
  generalize (os_key e (trace w)). intros key.
  generalize (os e (trace w) (pthread_key_create destructor)). intros r.
  destruct (r =? 0); simpl; [ | reflexivity ].
  by_build e; [ | reflexivity ].
  destruct (key =? kUnsetThreadLocalKey); reflexivity.
Qed.

Lemma Thread_SetThreadLocal_run key value e w :
  let r := os e (trace w) (pthread_setspecific key value) in
  Thread_SetThreadLocal key value e w
  = if passes_key_check e key
    then (after_events w [Call (pthread_setspecific key value) r],
          if r =? 0 then Ok tt else Fatal (PthreadError r))
    else (w, Fatal (AssertionFailed "key != kUnsetThreadLocalKey")).
Proof.
  intros r. subst r.
  unfold Thread_SetThreadLocal, passes_key_check, after_events. run.
  by_build e.
  - destruct (key =? kUnsetThreadLocalKey); simpl; [ reflexivity | ].
    generalize (os e (trace w) (pthread_setspecific key value)). intros r.
    destruct (r =? 0); reflexivity.
  - generalize (os e (trace w) (pthread_setspecific key value)). intros r.
    destruct (r =? 0); reflexivity.
Qed.

Lemma Thread_DeleteThreadLocal_run key e w :
  let r := os e (trace w) (pthread_key_delete key) in
  Thread_DeleteThreadLocal key e w
  = if passes_key_check e key
    then (after_events w [Call (pthread_key_delete key) r],
          if r =? 0 then Ok tt else Fatal (PthreadError r))
    else (w, Fatal (AssertionFailed "key != kUnsetThreadLocalKey")).
Proof.
  intros r. subst r.
  unfold Thread_DeleteThreadLocal, passes_key_check, after_events. run.
  by_build e.
  - destruct (key =? kUnsetThreadLocalKey); simpl; [ reflexivity | ].
    generalize (os e (trace w) (pthread_key_delete key)). intros r.
    destruct (r =? 0); reflexivity.
  - generalize (os e (trace w) (pthread_key_delete key)). intros r.
    destruct (r =? 0); reflexivity.
Qed.

(** X8.  The life of a thread-local key, on an OS that lets the calls
    through and hands out a key other than the "no key" value: the key that
    [CreateThreadLocal] returns is the one the OS stored, and it passes the
    key checks of [SetThreadLocal] and [DeleteThreadLocal], which reach the
    OS with that key and the given value. *)
Theorem thread_local_key_lifecycle destructor value e w :
  os_succeeds e -> os_key e (trace w) <> kUnsetThreadLocalKey ->
  (let! k := Thread_CreateThreadLocal destructor in
   Thread_SetThreadLocal k value >>
   Thread_DeleteThreadLocal k >>
   ret k) e w
  = (after_events w
       [Call (pthread_key_create destructor) 0;
        Call (pthread_setspecific (os_key e (trace w)) value) 0;
        Call (pthread_key_delete (os_key e (trace w))) 0],
     Ok (os_key e (trace w))).
Proof.
  intros Hos Hkey.
  assert (Hp : passes_key_check e (os_key e (trace w)) = true).
  { unfold passes_key_check. destruct (build e); [ | reflexivity ].
    destruct (Z.eqb_spec (os_key e (trace w)) kUnsetThreadLocalKey);
      [ contradiction | reflexivity ]. }
  unfold bind at 1. rewrite Thread_CreateThreadLocal_run, Hos, Hp.
  change (0 =? 0) with true. cbv iota.
  unfold bind at 1. rewrite Thread_SetThreadLocal_run, Hos, Hp.
  change (0 =? 0) with true. cbv iota.
  unfold bind at 1. rewrite Thread_DeleteThreadLocal_run, Hos, Hp.
  change (0 =? 0) with true. cbv iota.
  unfold ret. rewrite !after_events_app. reflexivity.
Qed.

(** X8 at work: the OS hands out key 3. *)
Lemma thread_local_key_lifecycle_witness :
  (let! k := Thread_CreateThreadLocal 5%N in
   Thread_SetThreadLocal k 42 >>
   Thread_DeleteThreadLocal k >>
   ret k) (scripted_env DEBUG 0 0 0) empty_world
  = (after_events empty_world
       [Call (pthread_key_create 5%N) 0; Call (pthread_setspecific 3 42) 0;
        Call (pthread_key_delete 3) 0], Ok 3).
Proof.
  apply (thread_local_key_lifecycle 5%N 42 (scripted_env DEBUG 0 0 0)
           empty_world).
  - intros tr c. destruct c; reflexivity.
  - discriminate.
Defined.

(** X9.  What the key checks guarantee.  A key returned by
    [CreateThreadLocal] comes from a successful [pthread_key_create], and
    in a DEBUG build it is never the "no key" value.  Given the "no key"
    value, [SetThreadLocal] and [DeleteThreadLocal] end a DEBUG build
    before the OS is asked; a build without assertions hands that value to
    the OS. *)
Theorem thread_local_key_checks e w :
  (forall destructor key,
     snd (Thread_CreateThreadLocal destructor e w) = Ok key ->
     new_events w (fst (Thread_CreateThreadLocal destructor e w))
     = [Call (pthread_key_create destructor) 0]
     /\ key = os_key e (trace w)
     /\ (build e = DEBUG -> key <> kUnsetThreadLocalKey))
  /\ (build e = DEBUG ->
      (forall value,
         Thread_SetThreadLocal kUnsetThreadLocalKey value e w
         = (w, Fatal (AssertionFailed "key != kUnsetThreadLocalKey")))
      /\ Thread_DeleteThreadLocal kUnsetThreadLocalKey e w
         = (w, Fatal (AssertionFailed "key != kUnsetThreadLocalKey")))
  /\ (build e = RELEASE ->
      (forall value,
         exists r,
           new_events w
             (fst (Thread_SetThreadLocal kUnsetThreadLocalKey value e w))
           = [Call (pthread_setspecific kUnsetThreadLocalKey value) r])
      /\ exists r,
           new_events w (fst (Thread_DeleteThreadLocal kUnsetThreadLocalKey e w))
           = [Call (pthread_key_delete kUnsetThreadLocalKey) r]).
Proof.
  split; [ | split ].
  - intros destructor key. rewrite Thread_CreateThreadLocal_run. simpl.
    rewrite new_events_after.
    destruct (Z.eqb_spec (os e (trace w) (pthread_key_create destructor)) 0)
      as [Hr | Hr]; [ | discriminate ].
    rewrite Hr.
    destruct (passes_key_check e (os_key e (trace w))) eqn:Hp;
      [ | discriminate ].
    intros H. inversion H. subst key.
    split; [ reflexivity | split; [ reflexivity | ] ].
    intros Hb Hk. unfold passes_key_check in Hp. rewrite Hb, Hk in Hp.
    discriminate Hp.
  - intros Hb. split; [ intros value | ].
    + rewrite Thread_SetThreadLocal_run. unfold passes_key_check. rewrite Hb.
      reflexivity.
    + rewrite Thread_DeleteThreadLocal_run. unfold passes_key_check.
      rewrite Hb. reflexivity.
  - intros Hb. split; [ intros value | ].
    + rewrite Thread_SetThreadLocal_run. unfold passes_key_check. rewrite Hb.
      simpl. rewrite new_events_after. eauto.
    + rewrite Thread_DeleteThreadLocal_run. unfold passes_key_check.
      rewrite Hb. simpl. rewrite new_events_after. eauto.
Qed.

(** X9 at work: the key that a DEBUG build returns, and the "no key"
    value given to [DeleteThreadLocal]. *)
Lemma thread_local_key_checks_witness :
  (3 <> kUnsetThreadLocalKey)
  /\ Thread_DeleteThreadLocal kUnsetThreadLocalKey (scripted_env DEBUG 0 0 0)
       empty_world
     = (empty_world, Fatal (AssertionFailed "key != kUnsetThreadLocalKey")).
Proof.
  pose proof (thread_local_key_checks (scripted_env DEBUG 0 0 0) empty_world)
    as (Hcreate & Hunset & _).
  split.
  - apply (Hcreate 5%N 3); reflexivity.
  - apply Hunset. reflexivity.
Defined.

(** ** What Thread::Start leaves behind *)

(** Where a failed call sits in a short list of events. *)
Ltac last_call :=
  let l := fresh "l" in let l' := fresh "l'" in
  let Heq := fresh "Heq" in let Hne := fresh "Hne" in
  let Hin := fresh "Hin" in
  intros l l' ? ? Heq Hne ? ? Hin;
  destruct l as [ | ? [ | ? [ | ? [ | ? [ | ? l ] ] ] ] ];
  simpl in Heq; inversion Heq; subst; simpl in Hin;
  try congruence;
  repeat (destruct Hin as [Hin | Hin]; [ inversion Hin | ]);
  try contradiction;
  try (destruct l; discriminate).

Ltac no_invoke :=
  let H := fresh "H" in
  intros ? ? H; simpl in H;
  repeat (destruct H as [H | H]; [ discriminate H | ]);
  contradiction.

Ltac attr_init_failed :=
  let Hf := fresh "Hf" in let Hin := fresh "Hin" in
  intros Hf;
  first
    [ contradiction
    | split;
      [ reflexivity
      | intros ? ? Hin; simpl in Hin;
        repeat (destruct Hin as [Hin | Hin];
                [ inversion Hin; reflexivity | ]);
        contradiction ] ].

(** X10.  What [Thread::Start] does besides returning a code.  It never
    calls the entry function itself and leaves the caller's current thread
    alone.  When [pthread_attr_init] fails, nothing has been allocated and
    no other OS call is made.  Once [pthread_attr_init] has succeeded, the
    start data is allocated and it stays allocated in the caller's heap
    whatever [pthread_create] and [pthread_attr_destroy] answer.  A failed
    OS call is the last OS call: after a refused [pthread_create] the
    attributes are not destroyed. *)
Theorem Thread_Start_effects name function parameter e w :
  tls_current (fst (Thread_Start name function parameter e w)) = tls_current w
  /\ (forall f p,
        ~ In (Invoke f p)
             (new_events w (fst (Thread_Start name function parameter e w))))
  /\ (os e (trace w) pthread_attr_init <> 0 ->
      heap (fst (Thread_Start name function parameter e w)) = heap w
      /\ forall c r,
           In (Call c r)
              (new_events w (fst (Thread_Start name function parameter e w))) ->
           c = pthread_attr_init)
  /\ (os e (trace w) pthread_attr_init = 0 ->
      heap (fst (Thread_Start name function parameter e w))
      = <[fresh_address (heap w) :=
            OThreadStartData {| tsd_name := name;
                                tsd_function := function;
                                tsd_parameter := parameter |}]> (heap w))
  /\ (forall l l' c rc,
        new_events w (fst (Thread_Start name function parameter e w))
        = l ++ Call c rc :: l' ->
        rc <> 0 ->
        forall c' r', ~ In (Call c' r') l').
Proof.
  unfold Thread_Start. run.
  next_call; [ next_call; [ next_call | ] | ];
    try by_build e; events; simpl;
    (split; [ reflexivity | ]);
    (split; [ no_invoke | ]);
    (split; [ attr_init_failed | ]);
    (split; [ intros; first [ reflexivity | contradiction ] | last_call ]).
Qed.

(** X10 at work: the OS refuses [pthread_create]; the start data stays in
    the caller's heap and [pthread_attr_destroy] is not called. *)
Lemma Thread_Start_effects_witness :
  heap (fst (Thread_Start 4%N 2%N 3 (scripted_env RELEASE EAGAIN 0 0)
               empty_world))
  = <[fresh_address ∅ := OThreadStartData {| tsd_name := 4%N;
                                             tsd_function := 2%N;
                                             tsd_parameter := 3 |}]> ∅
  /\ forall c' r', ~ In (Call c' r') [].
Proof.
  pose proof (Thread_Start_effects 4%N 2%N 3 (scripted_env RELEASE EAGAIN 0 0)
                empty_world) as (_ & _ & _ & Hheap & Hlast).
  split.
  - apply Hheap. reflexivity.
  - apply (Hlast [Call pthread_attr_init 0] [] (pthread_create 1%N) EAGAIN).
    + reflexivity.
    + discriminate.
Defined.

(** ** What the trampoline consumes *)

(** X11.  The trampoline uses up its start data.  Given a pointer to live
    start data, it reaches the call of the entry function in a world whose
    heap differs from the one it found in two places at most: the start
    data is gone and the new thread object is there.  Given a pointer to
    anything else, it is undefined and calls nothing.  Whenever it returns,
    it returns a null pointer. *)
Theorem ThreadStart_consumes_start_data data_ptr e w :
  (forall d,
     data_ptr <> NULL -> heap w !! data_ptr = Some (OThreadStartData d) ->
     exists thread installed,
       ThreadStart data_ptr e w
       = (invoke (tsd_function d) (tsd_parameter d) >> ret NULL) e installed
       /\ (forall p, p <> thread -> p <> data_ptr ->
             heap installed !! p = heap w !! p)
       /\ (forall d', heap installed !! data_ptr <> Some (OThreadStartData d'))
       /\ heap installed !! thread
          = Some (OThread {| thread_name := tsd_name d |}))
  /\ ((forall d, heap w !! data_ptr <> Some (OThreadStartData d)) ->
      ThreadStart data_ptr e w = (w, Undefined))
  /\ (forall r, snd (ThreadStart data_ptr e w) = Ok r -> r = NULL).
Proof.
  split; [ | split ].
  - intros d Hnn Hd.
    exists (fresh_address (delete data_ptr (heap w))). eexists.
    split; [ apply (ThreadStart_run data_ptr d e w Hnn Hd) | ].
    simpl. split; [ | split ].
    + intros p Hp Hq. rewrite !lookup_insert_ne by congruence.
      apply lookup_delete_ne. congruence.
    + intros d'.
      destruct (decide (fresh_address (delete data_ptr (heap w)) = data_ptr))
        as [Heq | Hne].
      * rewrite Heq, lookup_insert_eq. discriminate.
      * rewrite !lookup_insert_ne by congruence.
        rewrite lookup_delete_eq. discriminate.
    + apply lookup_insert_eq.
  - intros Hbad. unfold ThreadStart, load_ThreadStartData, bind at 1.
    destruct (heap w !! data_ptr) as [[bytes | d | t] | ] eqn:Hd;
      try reflexivity.
    exfalso. apply (Hbad d). reflexivity.
  - intros r. unfold ThreadStart.
    unfold bind, load_ThreadStartData, free, new, Thread_SetCurrent,
      Thread_set_name, invoke, log, ret.
    destruct (heap w !! data_ptr) as [[bytes | d | t] | ] eqn:Hd;
      try discriminate.
    destruct (decide (data_ptr = NULL)); simpl;
      [ | rewrite Hd; simpl ];
      rewrite lookup_insert_eq; simpl; unfold bind; simpl;
      match goal with
      | |- context [ code e ?f ?p ?w0 ] => destruct (code e f p w0) as [w1 [[] | f0 | ]]
      end; simpl; congruence.
Qed.

(** X11 at work: next to the start data at address 5 the heap holds a
    byte buffer at address 9, which the trampoline leaves alone. *)
Lemma ThreadStart_consumes_start_data_witness :
  let d := {| tsd_name := 4%N; tsd_function := 2%N; tsd_parameter := 3 |} in
  let w := {| heap := {[ 5%N := OThreadStartData d; 9%N := OBytes [1] ]};
              tls_current := NULL; trace := [] |} in
  exists thread installed,
    ThreadStart 5%N probe_env w
    = (invoke (tsd_function d) (tsd_parameter d) >> ret NULL) probe_env installed
    /\ (forall p, p <> thread -> p <> 5%N -> heap installed !! p = heap w !! p)
    /\ (forall d', heap installed !! 5%N <> Some (OThreadStartData d'))
    /\ heap installed !! thread = Some (OThread {| thread_name := tsd_name d |}).
Proof.
  intros d w.
  apply (ThreadStart_consumes_start_data 5%N probe_env w).
  - discriminate.
  - reflexivity.
Defined.

(** ** The timespec of a timed wait *)

Lemma WaitUntilNanos_timedwait_event this deadline e w ts r :
  In (Call (pthread_cond_timedwait ts) r)
     (new_events w (fst (Monitor_WaitUntilNanos this deadline e w))) ->
  tv_nsec ts = Z.rem deadline kNanosecondsPerSecond
  /\ (kMinInt32 <= Z.quot deadline kNanosecondsPerSecond ->
      tv_sec ts = Z.min (Z.quot deadline kNanosecondsPerSecond) kMaxInt32).
Proof.
  rewrite WaitUntilNanos_events.
  destruct (passes_held_check e (monitor_owner_ this)); [ | intros [] ].
  intros [Hin | []]. inversion Hin as [[Hts Hr]]. clear Hin Hr. simpl.
  split.
  - apply static_cast_in_range; [ reflexivity | apply nanos_in_long ].
  - intros Hlo. rewrite <- clamp_is_min.
    apply static_cast_in_range;
      [ reflexivity | apply int32_clamped_in_range; exact Hlo ].
Qed.

(** X12.  For a deadline that is not negative, the timespec handed to the
    OS is well formed (seconds from 0 to kMaxInt32, nanoseconds from 0 to
    one billion less one) and never later than the deadline.  Below
    (kMaxInt32 + 1) billion nanoseconds it is the deadline exactly; from
    there on the seconds are kMaxInt32, so the wait ends earlier than
    asked. *)
Theorem WaitUntilNanos_timespec_denotes_deadline this deadline e w ts r :
  0 <= deadline ->
  In (Call (pthread_cond_timedwait ts) r)
     (new_events w (fst (Monitor_WaitUntilNanos this deadline e w))) ->
  0 <= tv_sec ts <= kMaxInt32
  /\ 0 <= tv_nsec ts < kNanosecondsPerSecond
  /\ tv_sec ts * kNanosecondsPerSecond + tv_nsec ts <= deadline
  /\ (deadline < (kMaxInt32 + 1) * kNanosecondsPerSecond ->
      tv_sec ts * kNanosecondsPerSecond + tv_nsec ts = deadline)
  /\ ((kMaxInt32 + 1) * kNanosecondsPerSecond <= deadline ->
      tv_sec ts = kMaxInt32).
Proof.
  intros Hd Hin.
  destruct (WaitUntilNanos_timedwait_event _ _ _ _ _ _ Hin) as [Hns Hs].
  pose proof (Z.quot_rem' deadline kNanosecondsPerSecond) as Hqr.
  assert (Hpos : 0 < kNanosecondsPerSecond) by reflexivity.
  pose proof (Z.rem_bound_pos deadline kNanosecondsPerSecond Hd Hpos) as Hm.
  pose proof (Z.quot_pos deadline kNanosecondsPerSecond Hd Hpos) as Hq.
  rewrite Hns, Hs by (unfold kMinInt32; lia).
  revert Hqr Hm Hq.
  generalize (Z.quot deadline kNanosecondsPerSecond).
  generalize (Z.rem deadline kNanosecondsPerSecond).
  unfold kNanosecondsPerSecond, kMaxInt32. intros m q Hqr Hm Hq. lia.
Qed.

(** X12 at work on a deadline of five seconds and one nanosecond. *)
Lemma WaitUntilNanos_timespec_denotes_deadline_witness :
  tv_sec {| tv_sec := 5; tv_nsec := 1 |} * kNanosecondsPerSecond
  + tv_nsec {| tv_sec := 5; tv_nsec := 1 |} = 5000000001.
Proof.
  apply (WaitUntilNanos_timespec_denotes_deadline {| monitor_owner_ := 7 |}
           5000000001 (scripted_env DEBUG 0 0 0) empty_world
           {| tv_sec := 5; tv_nsec := 1 |} 0).
  - discriminate.
  - vm_compute. auto.
  - reflexivity.
Defined.

(** X13.  A negative deadline reaches the OS with nanoseconds that are
    not positive, and negative unless the deadline is a whole number of
    seconds: the remainder takes the sign of the deadline and nothing
    brings it back into the range of a timespec. *)
Theorem WaitUntilNanos_negative_deadline_nanos this deadline e w ts r :
  deadline < 0 ->
  In (Call (pthread_cond_timedwait ts) r)
     (new_events w (fst (Monitor_WaitUntilNanos this deadline e w))) ->
  - kNanosecondsPerSecond < tv_nsec ts <= 0
  /\ (Z.rem deadline kNanosecondsPerSecond <> 0 -> tv_nsec ts < 0).
Proof.
  intros Hd Hin.
  destruct (WaitUntilNanos_timedwait_event _ _ _ _ _ _ Hin) as [Hns _].
  rewrite Hns.
  assert (Hpos : 0 < kNanosecondsPerSecond) by reflexivity.
  pose proof (Z.rem_bound_pos_neg deadline kNanosecondsPerSecond Hpos) as Hm.
  lia.
Qed.

(** X13 at work on the deadline -1. *)
Lemma WaitUntilNanos_negative_deadline_nanos_witness :
  new_events empty_world
    (fst (Monitor_WaitUntilNanos {| monitor_owner_ := 7 |} (-1)
            (scripted_env DEBUG 0 0 0) empty_world))
  = [Call (pthread_cond_timedwait {| tv_sec := 0; tv_nsec := -1 |}) 0]
  /\ - kNanosecondsPerSecond < tv_nsec {| tv_sec := 0; tv_nsec := -1 |} <= 0.
Proof.
  split; [ vm_compute; reflexivity | ].
  apply (WaitUntilNanos_negative_deadline_nanos {| monitor_owner_ := 7 |}
           (-1) (scripted_env DEBUG 0 0 0) empty_world
           {| tv_sec := 0; tv_nsec := -1 |} 0).
  - reflexivity.
  - vm_compute. auto.
Defined.

(** ** Two messages, one buffer *)

(** X14.  The buffer of a message must not be shared.  When two messages
    hold the same live buffer (a message and its copy, or one message
    destroyed twice), destroying the first releases the buffer and
    destroying the second is then undefined: the buffer would be released
    twice. *)
Theorem IsolateMessage_shared_buffer_double_free
  (m1 m2 : Message.IsolateMessage) e w :
  Message.data m1 <> NULL -> Message.data m2 = Message.data m1 ->
  is_Some (heap w !! Message.data m1) ->
  (Message.IsolateMessage_dtor m1 >> Message.IsolateMessage_dtor m2) e w
  = ({| heap := delete (Message.data m1) (heap w);
        tls_current := tls_current w; trace := trace w |}, Undefined).
Proof.
  unfold Message.IsolateMessage_dtor, Message.data. intros Hnn Heq Hlive.
  unfold bind. rewrite (free_live _ e w Hnn Hlive), Heq.
  unfold free. destruct (decide (Message.data_ m1 = NULL)); [ contradiction | ].
  simpl. rewrite lookup_delete_eq. reflexivity.
Qed.

(** X14 at work: a message that owns the buffer at address 5 is destroyed
    twice. *)
Lemma IsolateMessage_shared_buffer_double_free_witness :
  snd ((Message.IsolateMessage_dtor (Message.IsolateMessage_bytes 1 5%N 4) >>
        Message.IsolateMessage_dtor (Message.IsolateMessage_bytes 1 5%N 4))
         (scripted_env DEBUG 0 0 0)
         {| heap := {[ 5%N := OBytes [1; 2; 3; 4] ]};
            tls_current := NULL; trace := [] |})
  = Undefined.
Proof.
  rewrite (IsolateMessage_shared_buffer_double_free
             (Message.IsolateMessage_bytes 1 5%N 4)
             (Message.IsolateMessage_bytes 1 5%N 4)).
  - reflexivity.
  - discriminate.
  - reflexivity.
  - vm_compute. eauto.
Defined.

(** ** Thread identifiers as integers *)

Lemma static_cast_range ty z :
  0 < CInt.bits ty -> CInt.in_range ty (CInt.static_cast ty z).
Proof.
  unfold CInt.in_range, CInt.min_value, CInt.max_value, CInt.static_cast.
  intros Hb.
  assert (Hp : 2 ^ CInt.bits ty = 2 * 2 ^ (CInt.bits ty - 1)).
  { rewrite <- Z.pow_succ_r by lia. f_equal. lia. }
  assert (0 < 2 ^ (CInt.bits ty - 1)) by (apply Z.pow_pos_nonneg; lia).
  destruct (CInt.is_signed ty).
  - pose proof (Z.mod_pos_bound (z + 2 ^ (CInt.bits ty - 1))
                  (2 ^ CInt.bits ty)). lia.
  - pose proof (Z.mod_pos_bound z (2 ^ CInt.bits ty)). lia.
Qed.

(** X15.  When [ThreadId] and [intptr_t] have the same size, the integers
    that [ThreadIdToIntPtr] returns are values of [intptr_t], different
    thread ids give different integers, and the invalid thread id gives
    0. *)
Theorem ThreadIdToIntPtr_injective (ThreadId : CInt.int_type) e w :
  CInt.sizeof ThreadId = CInt.sizeof CInt.intptr_t ->
  (forall id p, snd (Thread_ThreadIdToIntPtr ThreadId id e w) = Ok p ->
     CInt.in_range CInt.intptr_t p)
  /\ (forall id1 id2 p,
        CInt.in_range ThreadId id1 -> CInt.in_range ThreadId id2 ->
        snd (Thread_ThreadIdToIntPtr ThreadId id1 e w) = Ok p ->
        snd (Thread_ThreadIdToIntPtr ThreadId id2 e w) = Ok p ->
        id1 = id2)
  /\ Thread_ThreadIdToIntPtr ThreadId kInvalidThreadId e w = (w, Ok 0).
Proof.
  intros Hs.
  assert (Hbits : CInt.bits CInt.intptr_t = CInt.bits ThreadId)
    by (unfold CInt.bits; rewrite Hs; reflexivity).
  assert (Hpos : 0 < CInt.bits ThreadId) by (rewrite <- Hbits; reflexivity).
  split; [ | split ].
  - intros id p. rewrite (ThreadIdToIntPtr_same_size _ _ _ _ Hs). simpl.
    intros H. inversion H. apply static_cast_range. reflexivity.
  - intros id1 id2 p H1 H2.
    rewrite !(ThreadIdToIntPtr_same_size _ _ _ _ Hs). simpl.
    intros Hp1 Hp2. inversion Hp1 as [Hc1]. inversion Hp2 as [Hc2].
    rewrite <- (static_cast_round_trip ThreadId CInt.intptr_t id1 Hpos Hbits H1).
    rewrite <- (static_cast_round_trip ThreadId CInt.intptr_t id2 Hpos Hbits H2).
    rewrite Hc1, Hc2. reflexivity.
  - rewrite (ThreadIdToIntPtr_same_size _ _ _ _ Hs). reflexivity.
Qed.

(** X15 at work for an unsigned 64-bit [ThreadId]. *)
Lemma ThreadIdToIntPtr_injective_witness :
  CInt.in_range CInt.intptr_t (-1)
  /\ Thread_ThreadIdToIntPtr CInt.uintptr_t kInvalidThreadId
       (scripted_env DEBUG 0 0 0) empty_world = (empty_world, Ok 0).
Proof.
  pose proof (ThreadIdToIntPtr_injective CInt.uintptr_t
                (scripted_env DEBUG 0 0 0) empty_world eq_refl)
    as (Hrange & _ & Hzero).
  split.
  - apply (Hrange 18446744073709551615). vm_compute. reflexivity.
  - exact Hzero.
Defined.

(** ** The join id of the current thread *)

Lemma Thread_GetCurrentThreadJoinId_run thread e w :
  Thread_GetCurrentThreadJoinId thread e w
  = (w,
     match build e with
     | DEBUG =>
         match thread with
         | None => Fatal (AssertionFailed "thread != NULL")
         | Some t =>
             if id_ t =? pthread_self e
             then if join_id_ t =? kInvalidThreadJoinId
                  then Ok (pthread_self e,
                           Some {| id_ := id_ t; join_id_ := pthread_self e |})
                  else Fatal (AssertionFailed
                                "thread->join_id_ == kInvalidThreadJoinId")
             else Fatal (AssertionFailed
                           "thread->id() == GetCurrentThreadId()")
         end
     | RELEASE => Ok (pthread_self e, thread)
     end).
Proof.
  unfold Thread_GetCurrentThreadJoinId. run. by_build e; [ | reflexivity ].
  destruct thread as [t | ]; simpl; [ | reflexivity ].
  destruct (id_ t =? pthread_self e); simpl; [ | reflexivity ].
  destruct (join_id_ t =? kInvalidThreadJoinId); reflexivity.
Qed.

(** X16.  [GetCurrentThreadJoinId] asks the OS for nothing and, whenever
    it returns, returns the caller's [pthread_self].  In a DEBUG build it
    records the join id in the thread object, so that a second call on the
    object is fatal; it is fatal as well for a null thread and for a thread
    object of another thread.  A build without assertions returns the id
    for any argument, null included, and leaves the object alone. *)
Theorem Thread_GetCurrentThreadJoinId_once thread e w :
  (forall id thread',
     snd (Thread_GetCurrentThreadJoinId thread e w) = Ok (id, thread') ->
     id = pthread_self e
     /\ fst (Thread_GetCurrentThreadJoinId thread e w) = w)
  /\ (build e = DEBUG -> pthread_self e <> kInvalidThreadJoinId ->
      forall id thread',
        snd (Thread_GetCurrentThreadJoinId thread e w) = Ok (id, thread') ->
        snd (Thread_GetCurrentThreadJoinId thread' e w)
        = Fatal (AssertionFailed "thread->join_id_ == kInvalidThreadJoinId"))
  /\ (build e = DEBUG ->
      Thread_GetCurrentThreadJoinId None e w
      = (w, Fatal (AssertionFailed "thread != NULL")))
  /\ (build e = DEBUG ->
      forall t, thread = Some t -> id_ t <> pthread_self e ->
      Thread_GetCurrentThreadJoinId thread e w
      = (w, Fatal (AssertionFailed "thread->id() == GetCurrentThreadId()")))
  /\ (build e = RELEASE ->
      Thread_GetCurrentThreadJoinId thread e w
      = (w, Ok (pthread_self e, thread))).
Proof.
  rewrite !Thread_GetCurrentThreadJoinId_run. simpl.
  split; [ | split; [ | split; [ | split ] ] ].
  - intros id thread' H. split; [ | reflexivity ].
    destruct (build e); [ | congruence ].
    destruct thread as [t | ]; [ | discriminate H ].
    destruct (id_ t =? pthread_self e); [ | discriminate H ].
    destruct (join_id_ t =? kInvalidThreadJoinId); congruence.
  - intros Hb Hs id thread'. rewrite Hb.
    destruct thread as [t | ]; [ | discriminate ].
    destruct (Z.eqb_spec (id_ t) (pthread_self e)) as [Hid | Hid];
      [ | discriminate ].
    destruct (join_id_ t =? kInvalidThreadJoinId); [ | discriminate ].
    intros H. inversion H. subst.
    rewrite Thread_GetCurrentThreadJoinId_run, Hb. simpl.
    rewrite Hid, Z.eqb_refl.
    destruct (Z.eqb_spec (pthread_self e) kInvalidThreadJoinId);
      [ contradiction | reflexivity ].
  - intros Hb. rewrite Hb. reflexivity.
  - intros Hb t -> Hid. rewrite Hb.
    destruct (Z.eqb_spec (id_ t) (pthread_self e));
      [ contradiction | reflexivity ].
  - intros ->. reflexivity.
Qed.

(** X16 at work: thread 7 asks for its join id twice. *)
Lemma Thread_GetCurrentThreadJoinId_once_witness :
  snd (Thread_GetCurrentThreadJoinId (Some {| id_ := 7; join_id_ := 7 |})
         (scripted_env DEBUG 0 0 0) empty_world)
  = Fatal (AssertionFailed "thread->join_id_ == kInvalidThreadJoinId").
Proof.
  pose proof (Thread_GetCurrentThreadJoinId_once
                (Some {| id_ := 7; join_id_ := kInvalidThreadJoinId |})
                (scripted_env DEBUG 0 0 0) empty_world)
    as (_ & Honce & _).
  apply (Honce eq_refl) with (id := 7); [ discriminate | reflexivity ].
Defined.

(** ** When Thread::Start succeeds, and when it speaks *)

Ltac start_returns :=
  let H := fresh "H" in
  intros H; first [ eexists; reflexivity | inversion H; contradiction ].

Ltac start_events :=
  let H := fresh "H" in
  intros [? H]; first [ reflexivity | inversion H; contradiction ].

Ltac start_diagnostic :=
  let H := fresh "H" in
  intros ?; split;
  [ intros H; simpl in H;
    repeat (destruct H as [H | H];
            [ first [ discriminate H
                    | inversion H; subst; repeat split; congruence ] | ]);
    contradiction
  | intros (? & ? & H);
    first [ discriminate
          | inversion H; subst; first [ contradiction | simpl; tauto ] ] ].

(** X17.  [Thread::Start] returns 0 exactly when it has made its three OS
    calls and each has succeeded.  It writes a diagnostic exactly when it
    is a DEBUG build that returns a non-zero code, and the diagnostic
    carries that code. *)
Theorem Thread_Start_success_iff name function parameter e w :
  (snd (Thread_Start name function parameter e w) = Ok 0
   <-> exists data_ptr,
         new_events w (fst (Thread_Start name function parameter e w))
         = [Call pthread_attr_init 0; Call (pthread_create data_ptr) 0;
            Call pthread_attr_destroy 0])
  /\ (forall r,
        In (Stderr r)
           (new_events w (fst (Thread_Start name function parameter e w)))
        <-> build e = DEBUG /\ r <> 0
            /\ snd (Thread_Start name function parameter e w) = Ok r).
Proof.
  unfold Thread_Start. run.
  next_call; [ next_call; [ next_call | ] | ];
    try by_build e; events; simpl;
    (split; [ split; [ start_returns | start_events ] | start_diagnostic ]).
Qed.

(** X17 at work: a DEBUG build whose [pthread_create] is refused. *)
Lemma Thread_Start_success_iff_witness :
  In (Stderr EAGAIN)
     (new_events empty_world
        (fst (Thread_Start 4%N 2%N 3 (scripted_env DEBUG EAGAIN 0 0)
                empty_world)))
  /\ exists data_ptr,
       new_events empty_world
         (fst (Thread_Start 4%N 2%N 3 (scripted_env DEBUG 0 0 0) empty_world))
       = [Call pthread_attr_init 0; Call (pthread_create data_ptr) 0;
          Call pthread_attr_destroy 0].
Proof.
  split.
  - apply (Thread_Start_success_iff 4%N 2%N 3 (scripted_env DEBUG EAGAIN 0 0)
             empty_world).
    split; [ reflexivity | split; [ discriminate | reflexivity ] ].
  - apply (Thread_Start_success_iff 4%N 2%N 3 (scripted_env DEBUG 0 0 0)
             empty_world).
    reflexivity.
Defined.

(** ** Fresh locks *)

Lemma Mutex_ctor_succeeds e w :
  os_succeeds e ->
  Mutex_ctor e w
  = (after_events w
       (match build e with
        | DEBUG =>
            [Call pthread_mutexattr_init 0;
             Call (pthread_mutexattr_settype PTHREAD_MUTEX_ERRORCHECK) 0;
             Call pthread_mutex_init 0; Call pthread_mutexattr_destroy 0]
        | RELEASE =>
            [Call pthread_mutexattr_init 0; Call pthread_mutex_init 0;
             Call pthread_mutexattr_destroy 0]
        end),
     Ok {| mutex_owner_ := kInvalidThreadId |}).
Proof.
  intros Hos. unfold Mutex_ctor, after_events. run.
  repeat (rewrite Hos; change (0 =? 0) with true; simpl).
  by_build e;
    repeat (rewrite Hos; change (0 =? 0) with true; simpl);
    rewrite <- ?app_assoc; reflexivity.
Qed.

Lemma Monitor_ctor_succeeds e w :
  os_succeeds e ->
  Monitor_ctor e w
  = (after_events w
       ((match build e with
         | DEBUG =>
             [Call pthread_mutexattr_init 0;
              Call (pthread_mutexattr_settype PTHREAD_MUTEX_ERRORCHECK) 0]
         | RELEASE => [Call pthread_mutexattr_init 0]
         end)
        ++ [Call pthread_mutex_init 0; Call pthread_mutexattr_destroy 0;
            Call pthread_condattr_init 0;
            Call (pthread_condattr_setclock CLOCK_MONOTONIC) 0;
            Call pthread_cond_init 0; Call pthread_condattr_destroy 0]),
     Ok {| monitor_owner_ := kInvalidThreadId |}).
Proof.
  intros Hos. unfold Monitor_ctor, after_events. run.
  repeat (rewrite Hos; change (0 =? 0) with true; simpl).
  by_build e;
    repeat (rewrite Hos; change (0 =? 0) with true; simpl);
    rewrite <- ?app_assoc; reflexivity.
Qed.

(** X18.  A new lock is free.  On an OS that lets the calls through, a
    mutex can be locked and unlocked right after its construction, and a
    monitor can be entered, notified and left right after its
    construction, in every build; both end up unowned.  The construction
    destroys the attribute objects it initialised, and a DEBUG build asks
    for an error-checking mutex. *)
Theorem fresh_locks_are_free e w :
  os_succeeds e ->
  snd ((let! m := Mutex_ctor in
        let! m := Mutex_Lock m in
        Mutex_Unlock m) e w)
  = Ok {| mutex_owner_ := kInvalidThreadId |}
  /\ snd ((let! m := Monitor_ctor in
           let! m := Monitor_Enter m in
           Monitor_Notify m >>
           Monitor_Exit m) e w)
     = Ok {| monitor_owner_ := kInvalidThreadId |}
  /\ (let created := new_events w (fst (Mutex_ctor e w)) in
      In (Call pthread_mutexattr_init 0) created
      /\ In (Call pthread_mutexattr_destroy 0) created
      /\ (build e = DEBUG ->
          In (Call (pthread_mutexattr_settype PTHREAD_MUTEX_ERRORCHECK) 0)
             created))
  /\ (let created := new_events w (fst (Monitor_ctor e w)) in
      In (Call pthread_mutexattr_init 0) created
      /\ In (Call pthread_mutexattr_destroy 0) created
      /\ In (Call pthread_condattr_init 0) created
      /\ In (Call pthread_condattr_destroy 0) created).
Proof.
  intros Hos. split; [ | split; [ | split ] ].
  - unfold bind at 1. rewrite (Mutex_ctor_succeeds e w Hos).
    unfold bind. rewrite Mutex_Lock_run, Hos.
    change (0 =? EDEADLK) with false. change (0 =? 0) with true. simpl.
    destruct (build e) eqn:Hb.
    + rewrite Mutex_Unlock_run. unfold passes_held_check. rewrite Hb. simpl.
      rewrite Z.eqb_refl, Hos. reflexivity.
    + rewrite Mutex_Unlock_run. unfold passes_held_check. rewrite Hb.
      reflexivity.
  - unfold bind at 1. rewrite (Monitor_ctor_succeeds e w Hos).
    unfold bind at 1. rewrite Monitor_Enter_run, Hos.
    change (0 =? 0) with true. simpl.
    destruct (build e) eqn:Hb.
    + unfold bind at 1. unfold Monitor_Notify. run. rewrite Hb. simpl.
      rewrite Z.eqb_refl. simpl. rewrite Hos. change (0 =? 0) with true.
      simpl. rewrite Monitor_Exit_run. unfold passes_held_check.
      rewrite Hb. simpl. rewrite Z.eqb_refl, Hos. reflexivity.
    + unfold bind at 1. unfold Monitor_Notify. run. rewrite Hb. simpl.
      rewrite Hos. change (0 =? 0) with true. simpl.
      rewrite Monitor_Exit_run. unfold passes_held_check.
      rewrite Hb. simpl. rewrite Hos. reflexivity.
  - rewrite (Mutex_ctor_succeeds e w Hos). simpl. rewrite new_events_after.
    destruct (build e); simpl; repeat split; auto; discriminate.
  - rewrite (Monitor_ctor_succeeds e w Hos). simpl. rewrite new_events_after.
    destruct (build e); simpl; repeat split; auto 10.
Qed.

(** X18 at work, in a DEBUG build. *)
Lemma fresh_locks_are_free_witness :
  snd ((let! m := Mutex_ctor in
        let! m := Mutex_Lock m in
        Mutex_Unlock m) (scripted_env DEBUG 0 0 0) empty_world)
  = Ok {| mutex_owner_ := kInvalidThreadId |}.
Proof.
  apply (fresh_locks_are_free (scripted_env DEBUG 0 0 0) empty_world).
  intros tr c. destruct c; reflexivity.
Defined.
